(** * OPEN-EYES smart cane backend: GSM link, SMS dispatch task and contact slots

    A shallow embedding of the three pieces of the backend that carry logic:

    - [core/sms/services.py]: [GSMHardwareService.envoyer_sms_physique], the
      AT-command exchange over a pyserial port;
    - [core/sms/tasks.py]: [task_envoyer_sms], the Celery task that resolves
      the cane, calls the service and asks Celery for a retry;
    - [apps/contacts/views.py]: [RegisterContactViaSMSAPIView.post] and
      [DeleteContactAPIView.post], which assign and free the five
      micro-controller indices of a cane.

    Python [str] values are lists of code points, [bytes] values lists of
    octets; exceptions are an explicit result type; the serial port, the
    loggers and the database tables are explicit state. *)

From Stdlib Require Import ZArith List String Ascii Bool Arith Lia.
Import ListNotations.
Local Open Scope Z_scope.

(* ===================================================================== *)
(** * Part I. Definitions                                                 *)
(* ===================================================================== *)

(** ** Python strings and bytes *)

Module Py.

(** A [str] is a sequence of Unicode code points, a [bytes] a sequence of
    octets (values in [0, 255]). *)
Definition str := list Z.
Definition bytes := list Z.

(** Code points of an ASCII literal of the source. *)
Definition lit (s : string) : str :=
  map (fun a => Z.of_N (N_of_ascii a)) (list_ascii_of_string s).

Definition QUOTE : Z := 34.   (* the double quote inside f'AT+CMGS="{numero}"\r' *)
Definition CR : Z := 13.      (* \r *)

Fixpoint str_eqb (a b : str) : bool :=
  match a, b with
  | [], [] => true
  | x :: a', y :: b' => (x =? y) && str_eqb a' b'
  | _, _ => false
  end.

(** [startswith p s]: [s] begins with [p]. *)
Fixpoint startswith (p s : str) : bool :=
  match p, s with
  | [], _ => true
  | _ :: _, [] => false
  | x :: p', y :: s' => (x =? y) && startswith p' s'
  end.

(** [contains p s] is Python's [p in s] on strings. *)
Fixpoint contains (p s : str) : bool :=
  startswith p s ||
  match s with
  | [] => false
  | _ :: s' => contains p s'
  end.

(** *** [str.encode()]: UTF-8, errors='strict' *)

Definition encode_char (c : Z) : option bytes :=
  if c <? 0x80 then Some [c]
  else if c <? 0x800 then
    Some [Z.lor 0xC0 (Z.shiftr c 6); Z.lor 0x80 (Z.land c 0x3F)]
  else if (0xD800 <=? c) && (c <=? 0xDFFF) then
    None                                  (* UnicodeEncodeError: surrogates not allowed *)
  else if c <? 0x10000 then
    Some [Z.lor 0xE0 (Z.shiftr c 12);
          Z.lor 0x80 (Z.land (Z.shiftr c 6) 0x3F);
          Z.lor 0x80 (Z.land c 0x3F)]
  else
    Some [Z.lor 0xF0 (Z.shiftr c 18);
          Z.lor 0x80 (Z.land (Z.shiftr c 12) 0x3F);
          Z.lor 0x80 (Z.land (Z.shiftr c 6) 0x3F);
          Z.lor 0x80 (Z.land c 0x3F)].

Fixpoint encode (s : str) : option bytes :=
  match s with
  | [] => Some []
  | c :: s' =>
      match encode_char c, encode s' with
      | Some b, Some bs => Some (b ++ bs)
      | _, _ => None
      end
  end.

(** *** [bytes.decode(errors='ignore')]: UTF-8, undecodable octets dropped

    The decoder of CPython: an invalid start byte is dropped alone; a
    sequence broken at its k-th continuation byte loses its first k octets
    and decoding resumes at the offending octet; a sequence cut by the
    end of the data is dropped whole. *)

Definition is_continuation (b : Z) : bool := (0x80 <=? b) && (b <=? 0xBF).

(** Second octet refused after a three-octet lead: overlong forms after
    0xE0, surrogates after 0xED. *)
Definition bad_second3 (ch ch2 : Z) : bool :=
  negb (is_continuation ch2) ||
  (if ch2 <? 0xA0 then ch =? 0xE0 else ch =? 0xED).

(** Second octet refused after a four-octet lead: overlong forms after
    0xF0, code points above 0x10FFFF after 0xF4. *)
Definition bad_second4 (ch ch2 : Z) : bool :=
  negb (is_continuation ch2) ||
  (if ch2 <? 0x90 then ch =? 0xF0 else ch =? 0xF4).

Fixpoint decode_ignore (bs : bytes) : str :=
  match bs with
  | [] => []
  | ch :: t1 =>
      if ch <? 0x80 then ch :: decode_ignore t1
      else if ch <? 0xC2 then decode_ignore t1               (* invalid start byte *)
      else if ch <? 0xE0 then
        match t1 with
        | [] => []                                           (* unexpected end of data *)
        | ch2 :: t2 =>
            if is_continuation ch2
            then (Z.shiftl ch 6 + ch2 - (Z.shiftl 0xC0 6 + 0x80)) :: decode_ignore t2
            else decode_ignore t1
        end
      else if ch <? 0xF0 then
        match t1 with
        | [] => []
        | ch2 :: t2 =>
            if bad_second3 ch ch2 then decode_ignore t1
            else
              match t2 with
              | [] => []
              | ch3 :: t3 =>
                  if is_continuation ch3
                  then (Z.shiftl ch 12 + Z.shiftl ch2 6 + ch3
                        - (Z.shiftl 0xE0 12 + Z.shiftl 0x80 6 + 0x80))
                       :: decode_ignore t3
                  else decode_ignore t2
              end
        end
      else if ch <? 0xF5 then
        match t1 with
        | [] => []
        | ch2 :: t2 =>
            if bad_second4 ch ch2 then decode_ignore t1
            else
              match t2 with
              | [] => []
              | ch3 :: t3 =>
                  if negb (is_continuation ch3) then decode_ignore t2
                  else
                    match t3 with
                    | [] => []
                    | ch4 :: t4 =>
                        if is_continuation ch4
                        then (Z.shiftl ch 18 + Z.shiftl ch2 12 + Z.shiftl ch3 6 + ch4
                              - (Z.shiftl 0xF0 18 + Z.shiftl 0x80 12
                                 + Z.shiftl 0x80 6 + 0x80))
                             :: decode_ignore t4
                        else decode_ignore t3
                    end
              end
        end
      else decode_ignore t1                                  (* invalid start byte *)
  end.

(** *** Exceptions

    Two classes are told apart by the handlers of the source:
    [serial.SerialException] (with its subclasses) and every other
    subclass of [Exception]. *)
Inductive exn :=
| SerialException (detail : string)
| OtherException (detail : string).

Inductive result (A : Type) :=
| Ok (a : A)
| Raise (e : exn).
Arguments Ok {A} a.
Arguments Raise {A} e.

End Py.

(** ** The serial port (pyserial) and the loggers

    The port is driven by a [hardware] oracle that says, for one exchange,
    whether opening succeeds, which writes succeed and what is read. Every
    call on the port may raise. [print] raises when the line cannot be
    encoded for the standard output. [time.sleep], the loggers (the
    logging package keeps the errors of its handlers to itself) and
    [ser.close()] are taken not to raise, and asynchronous interruptions
    (KeyboardInterrupt, SystemExit), which are no subclass of [Exception],
    are outside the model. *)

Module Serial.
Import Py.

(** One record per logging or printing site of the source, carrying the
    values interpolated in its message. *)
Inductive log_record :=
| Info_sms_envoye (numero : str)                 (* services.py, logger.info, l.54 *)
| Error_echec_envoi (reponse : str)              (* services.py, logger.error, l.57 *)
| Error_acces_module (port : string) (e : string)  (* services.py, logger.error, l.62 *)
| Stdout_mode_test (port : string) (numero message : str)  (* services.py, print, l.64 *)
| Error_imprevue (e : string)                    (* services.py, logger.error, l.68 *)
| Info_tentative (numero : str)                  (* tasks.py, logger.info, l.24 *)
| Info_succes (canne_id : Z)                     (* tasks.py, logger.info, l.33 *)
| Error_introuvable (canne_id : Z)               (* tasks.py, logger.error, l.39 *)
| Error_erreur (e : string).                     (* tasks.py, logger.error, l.42 *)

(** What an observer of the machine sees, in order. *)
Inductive event :=
| EvOpen (port : string) (baudrate timeout : Z)   (* serial.Serial(...) returned *)
| EvSleep (ms : Z)                                (* time.sleep, in milliseconds *)
| EvWrite (data : bytes)                          (* ser.write(data) returned *)
| EvRead (data : bytes)                           (* ser.read_all() returned data *)
| EvClose                                         (* ser.close() *)
| EvLog (r : log_record).

(** How the attached hardware answers during one exchange. *)
Record hardware := {
  on_open : option exn;          (* [None]: the port opens *)
  on_write : nat -> option exn;  (* fate of the k-th call of ser.write, k = 0, 1, ... *)
  on_read_all : result bytes     (* what ser.read_all() gives *)
}.

(** The local variable [ser] ([None], or a port with its [is_open] flag),
    the number of writes made so far and the events observed. *)
Record frame := {
  ser : option bool;
  nwrites : nat;
  trace : list event
}.

(** Computations that read and change the frame and may raise. *)
Definition M (A : Type) := frame -> result A * frame.

Definition ret {A} (a : A) : M A := fun fr => (Ok a, fr).

Definition bind {A B} (c : M A) (k : A -> M B) : M B :=
  fun fr =>
    match c fr with
    | (Ok a, fr') => k a fr'
    | (Raise e, fr') => (Raise e, fr')
    end.

Definition raise {A} (e : exn) : M A := fun fr => (Raise e, fr).

Definition emit (ev : event) : M unit :=
  fun fr => (Ok tt, {| ser := ser fr; nwrites := nwrites fr; trace := trace fr ++ [ev] |}).

(** try: c / except Exception as e: h e *)
Definition try_except {A} (c : M A) (h : exn -> M A) : M A :=
  fun fr =>
    match c fr with
    | (Ok a, fr') => (Ok a, fr')
    | (Raise e, fr') => h e fr'
    end.

(** try: c / finally: f -- the result of [c] is kept unless [f] raises. *)
Definition try_finally {A} (c : M A) (f : M unit) : M A :=
  fun fr =>
    match c fr with
    | (r, fr') =>
        match f fr' with
        | (Ok _, fr'') => (r, fr'')
        | (Raise e, fr'') => (Raise e, fr'')
        end
    end.

Definition of_option {A} (o : option A) (e : exn) : M A :=
  match o with
  | Some a => ret a
  | None => raise e
  end.

Section Port.
Variable hw : hardware.

(** ser = serial.Serial(port, baudrate, timeout=timeout) *)
Definition Serial_ (port : string) (baudrate timeout : Z) : M unit :=
  fun fr =>
    match on_open hw with
    | Some e => (Raise e, fr)
    | None =>
        (Ok tt, {| ser := Some true; nwrites := nwrites fr;
                   trace := trace fr ++ [EvOpen port baudrate timeout] |})
    end.

(** ser.write(data) *)
Definition write (data : bytes) : M unit :=
  fun fr =>
    match on_write hw (nwrites fr) with
    | Some e =>
        (Raise e, {| ser := ser fr; nwrites := S (nwrites fr); trace := trace fr |})
    | None =>
        (Ok tt, {| ser := ser fr; nwrites := S (nwrites fr);
                   trace := trace fr ++ [EvWrite data] |})
    end.

(** ser.read_all() *)
Definition read_all : M bytes :=
  fun fr =>
    match on_read_all hw with
    | Raise e => (Raise e, fr)
    | Ok data =>
        (Ok data, {| ser := ser fr; nwrites := nwrites fr;
                     trace := trace fr ++ [EvRead data] |})
    end.
End Port.

(** ser.close() *)
Definition close : M unit :=
  fun fr =>
    (Ok tt, {| ser := Some false; nwrites := nwrites fr; trace := trace fr ++ [EvClose] |}).

Definition sleep (ms : Z) : M unit := emit (EvSleep ms).
Definition log (r : log_record) : M unit := emit (EvLog r).

End Serial.

Declare Scope py_scope.
Delimit Scope py_scope with py.
Notation "x <- c ;; k" := (Serial.bind c (fun x => k))
  (at level 61, c at next level, right associativity) : py_scope.
Notation "c ;; k" := (Serial.bind c (fun _ => k))
  (at level 61, right associativity) : py_scope.

(** ** core/sms/services.py *)

Module GSMHardwareService.
Import Py Serial.
Local Open Scope py_scope.

Definition PORT : string := "/dev/ttyUSB0".
Definition BAUD_RATE : Z := 9600.

Definition UnicodeEncodeError : exn := OtherException "UnicodeEncodeError".

Section Exchange.
Variable hw : hardware.

(** The body of the [try] block, lines 26 to 58. *)
Definition exchange (numero message : str) : M bool :=
  Serial_ hw PORT BAUD_RATE 5 ;;
  sleep 1000 ;;
  write hw (lit "AT" ++ [CR]) ;;
  sleep 500 ;;
  write hw (lit "AT+CMGF=1" ++ [CR]) ;;
  sleep 500 ;;
  let cmd_numero := lit "AT+CMGS=" ++ [QUOTE] ++ numero ++ [QUOTE; CR] in
  data <- of_option (encode cmd_numero) UnicodeEncodeError ;;
  write hw data ;;
  sleep 500 ;;
  body <- of_option (encode message) UnicodeEncodeError ;;
  write hw body ;;
  write hw [26] ;;
  sleep 3000 ;;
  raw <- read_all hw ;;
  let reponse := decode_ignore raw in
  if contains (lit "OK") reponse || contains (lit "+CMGS:") reponse
  then log (Info_sms_envoye numero) ;; ret true
  else log (Error_echec_envoi reponse) ;; ret false.

(** print(text): sys.stdout is a text stream that encodes as UTF-8 with
    errors='strict', the interpreter's choice under a UTF-8 locale. A text
    that cannot be encoded raises UnicodeEncodeError and nothing is
    written; otherwise [r] records the line. *)
Definition print_ (text : str) (r : log_record) : M unit :=
  match encode text with
  | Some _ => log r
  | None => raise UnicodeEncodeError
  end.

(** The text of the [print] of line 64, followed by the newline that
    [print] appends; 233 is the e acute of the literal. *)
Definition mode_test_line (numero message : str) : str :=
  [10] ++ lit "[MODE TEST] Mat" ++ [233] ++ lit "riel absent sur " ++ lit PORT
  ++ lit ". Simulation SMS vers " ++ numero ++ lit " : " ++ message ++ [10; 10].

(** The two [except] clauses, lines 60 to 69. An exception raised inside
    a clause is not handled by the other one: it leaves the [try]
    statement once the [finally] clause has run. *)
Definition handlers (numero message : str) (e : exn) : M bool :=
  match e with
  | SerialException d =>
      log (Error_acces_module PORT d) ;;
      print_ (mode_test_line numero message) (Stdout_mode_test PORT numero message) ;;
      ret true
  | OtherException d =>
      log (Error_imprevue d) ;;
      ret false
  end.

(** The [finally] clause: if ser and ser.is_open: ser.close() *)
Definition cleanup : M unit :=
  fun fr =>
    match ser fr with
    | Some true => close fr
    | _ => ret tt fr
    end.

(** The whole method: [ser = None], then try / except / finally. *)
Definition envoyer_sms_physique (numero message : str) : M bool :=
  fun fr =>
    let fr0 := {| ser := None; nwrites := 0; trace := trace fr |} in
    try_finally
      (try_except (exchange numero message) (handlers numero message))
      cleanup fr0.
End Exchange.

(** The frame a caller starts from. *)
Definition fresh (tr : list event) : frame :=
  {| ser := None; nwrites := 0; trace := tr |}.

End GSMHardwareService.


(** ** The database tables (Django models) *)

Module Models.
Import Py.

(** apps/canes: [Canne]. The automatic [created_at] and [updated_at] stamps
    play no part below and are left out. *)
Record Canne := {
  canne_pk : Z;                                 (* id *)
  numero_gsm : str;
  statut : string;
  derniere_communication : option Z             (* DateTimeField(null=True) *)
}.

(** apps/contacts: [Contact]. *)
Record Contact := {
  contact_pk : Z;                               (* id *)
  canne : Z;                                    (* ForeignKey to Canne *)
  nom : str;
  prenom : str;
  telephone : str;
  type_contact : str;
  priorite : Z;
  ajoute_par : option Z;
  id_microcontroleur : option Z;                (* IntegerField(null=True) *)
  synchro_avec_canne : bool
}.

(** core/sms: [SMSLog]. *)
Record SMSLog := {
  log_canne : Z;
  contenu : str;
  telephone_destinataire : str;
  log_statut : string;                          (* EN_ATTENTE, ENVOYE or ECHEC *)
  date_envoi : Z;
  user : option Z;
  erreur_details : option str
}.

Record database := {
  cannes : list Canne;
  contacts : list Contact;
  sms_logs : list SMSLog;
  contact_seq : Z                               (* next primary key of Contact *)
}.

(** Canne.objects.get(id=canne_id); [None] stands for Canne.DoesNotExist. *)
Definition Canne_objects_get (canne_id : Z) (db : database) : option Canne :=
  find (fun c => canne_pk c =? canne_id) (cannes db).

(** Contact.objects.filter(canne=c) *)
Definition Contact_filter_canne (c : Canne) (db : database) : list Contact :=
  filter (fun k => canne k =? canne_pk c) (contacts db).

(** Contact.objects.filter(canne=c, telephone=t) *)
Definition Contact_filter_canne_telephone (c : Canne) (t : str) (db : database)
  : list Contact :=
  filter (fun k => (canne k =? canne_pk c) && str_eqb (telephone k) t) (contacts db).

(** Contact.objects.filter(id=contact_id, canne_id=canne_id) *)
Definition Contact_filter_id_canne (contact_id canne_id : Z) (db : database)
  : list Contact :=
  filter (fun k => (contact_pk k =? contact_id) && (canne k =? canne_id)) (contacts db).

(** QuerySet.exists() *)
Definition exists_ {A} (q : list A) : bool :=
  match q with
  | [] => false
  | _ :: _ => true
  end.

(** What a column of text takes. The engine is PostgreSQL (settings.py,
    DATABASES): the driver refuses a string that holds the NUL character
    or that UTF-8 cannot encode, and a CharField(max_length=n) is a column
    of type varchar(n), which refuses a value of more than n characters
    (a value whose excess is made of spaces only, which PostgreSQL would
    cut to n characters, is counted as refused here). Queries that only
    read are taken to succeed. *)
Definition is_text (s : str) : bool :=
  negb (existsb (fun c => c =? 0) s)
  && match encode s with Some _ => true | None => false end.

Definition fits (max_length : nat) (s : str) : bool :=
  is_text s && (List.length s <=? max_length)%nat.

(** The row of a new contact, with the next primary key, and the tables
    once it is stored. *)
Definition Contact_insert (c : Canne) (nom_ telephone_ type_contact_ : str)
    (id_microcontroleur_ : Z) (synchro : bool) (db : database) : Contact * database :=
  let row := {| contact_pk := contact_seq db;
                canne := canne_pk c;
                nom := nom_;
                prenom := [];
                telephone := telephone_;
                type_contact := type_contact_;
                priorite := 1;
                ajoute_par := None;
                id_microcontroleur := Some id_microcontroleur_;
                synchro_avec_canne := synchro |} in
  (row, {| cannes := cannes db;
           contacts := contacts db ++ [row];
           sms_logs := sms_logs db;
           contact_seq := contact_seq db + 1 |}).

(** Contact.objects.create(canne=, nom=, telephone=, type_contact=,
    id_microcontroleur=, synchro_avec_canne=); [nom_] is [None] for the
    Python value None. nom is max_length=100 and is not declared null=True,
    telephone and type_contact are max_length=20 (contacts/models.py,
    l.21-28; create does not check the choices of type_contact). [None]
    stands for the exception of a refused INSERT (IntegrityError, DataError
    or the driver's own): nothing is stored. *)
Definition Contact_objects_create (c : Canne) (nom_ : option str)
    (telephone_ type_contact_ : str) (id_microcontroleur_ : Z) (synchro : bool)
    (db : database) : option (Contact * database) :=
  match nom_ with
  | None => None
  | Some n =>
      if fits 100 n && fits 20 telephone_ && fits 20 type_contact_
      then Some (Contact_insert c n telephone_ type_contact_ id_microcontroleur_ synchro db)
      else None
  end.

(** instance.delete() on a Contact. *)
Definition Contact_delete (k : Contact) (db : database) : database :=
  {| cannes := cannes db;
     contacts := filter (fun k' => negb (contact_pk k' =? contact_pk k)) (contacts db);
     sms_logs := sms_logs db;
     contact_seq := contact_seq db |}.

End Models.

(** ** Celery: retrying a bound task

    [Task.retry] of Celery, as [task_envoyer_sms] calls it
    ([self.retry(exc=e, countdown=60)], with [throw] left at its default):
    the number of the next run is [request.retries + 1]; past
    [max_retries] the exception [exc] is raised and the task fails,
    otherwise the task is sent again with that number and a [Retry] is
    raised. Called outside a worker, [exc] is raised at once. *)

Module Celery.
Import Py.

Record request := {
  retries : nat;               (* how many times the task was retried so far *)
  called_directly : bool
}.

(** How one run of a task ends. *)
Inductive exit (A : Type) :=
| Return (a : A)
| Retry (exc : exn) (when : Z) (next : request)   (* a new run is scheduled in [when] seconds *)
| Failure (exc : exn).
Arguments Return {A} a.
Arguments Retry {A} exc when next.
Arguments Failure {A} exc.

Definition retry {A} (max_retries : option nat) (req : request) (exc : exn)
    (countdown : Z) : exit A :=
  let retries' := S (retries req) in
  if called_directly req then Failure exc
  else
    match max_retries with
    | Some m =>
        if (m <? retries')%nat then Failure exc
        else Retry exc countdown {| retries := retries'; called_directly := false |}
    | None => Retry exc countdown {| retries := retries'; called_directly := false |}
    end.

(** What became of a job once no further run is scheduled. *)
Record job (A S : Type) := {
  job_exit : exit A;
  attempts : nat;              (* runs of the task body *)
  countdowns : list Z;         (* delay of each retry, in order *)
  job_state : S
}.
Arguments job_exit {A S} j.
Arguments attempts {A S} j.
Arguments countdowns {A S} j.
Arguments job_state {A S} j.

(** The worker: runs the task, and runs it again for every scheduled retry.
    [fuel] bounds the number of runs followed; [None] means the bound was
    reached with a retry still pending. *)
Fixpoint worker {A S} (fuel : nat) (task : request -> S -> exit A * S)
    (req : request) (s : S) (done : nat) (delays : list Z) : option (job A S) :=
  match fuel with
  | O => None
  | Datatypes.S fuel' =>
      match task req s with
      | (Retry exc when next, s') =>
          worker fuel' task next s' (Datatypes.S done) (delays ++ [when])
      | (r, s') =>
          Some {| job_exit := r; attempts := Datatypes.S done;
                  countdowns := delays; job_state := s' |}
      end
  end.

(** task.delay(...): the first run has [retries = 0]. *)
Definition delay {A S} (fuel : nat) (task : request -> S -> exit A * S) (s : S)
  : option (job A S) :=
  worker fuel task {| retries := 0; called_directly := false |} s 0%nat [].

End Celery.

(** ** core/sms/tasks.py *)

Module Tasks.
Import Py Serial Models Celery.

(** The tables and what was logged, printed or done on the serial port. *)
Record system := {
  db : database;
  console : list event
}.

Definition logged (s : system) (tr : list event) : system :=
  {| db := db s; console := tr |}.

Definition dict := list (string * string).

(** @shared_task(bind=True, max_retries=3) *)
Definition max_retries : option nat := Some 3%nat.

Definition message_of (e : exn) : string :=
  match e with
  | SerialException d => d
  | OtherException d => d
  end.

Definition echec : exn := OtherException "Le service GSM a échoué.".

Definition task_envoyer_sms (hw : hardware) (self : request)
    (canne_id : Z) (contenu : str) (user_id : option Z) (s : system)
  : exit dict * system :=
  match Canne_objects_get canne_id (db s) with
  | None =>
      (* except Canne.DoesNotExist *)
      (Return [("status", "failed"); ("reason", "not_found")]%string,
       logged s (console s ++ [EvLog (Error_introuvable canne_id)]))
  | Some canne =>
      let numero_destination := numero_gsm canne in
      let tr := console s ++ [EvLog (Info_tentative numero_destination)] in
      match GSMHardwareService.envoyer_sms_physique hw numero_destination contenu
              (GSMHardwareService.fresh tr) with
      | (Ok true, fr) =>
          (Return [("status", "success")]%string,
           logged s (trace fr ++ [EvLog (Info_succes canne_id)]))
      | (Ok false, fr) =>
          (* raise Exception(...), caught by except Exception as e *)
          (retry max_retries self echec 60,
           logged s (trace fr ++ [EvLog (Error_erreur (message_of echec))]))
      | (Raise e, fr) =>
          (retry max_retries self e 60,
           logged s (trace fr ++ [EvLog (Error_erreur (message_of e))]))
      end
  end.

(** task_envoyer_sms.delay(canne_id, contenu, user_id): the k-th run of the
    job meets the hardware [hws k]. *)
Definition submit (fuel : nat) (hws : nat -> hardware)
    (canne_id : Z) (contenu : str) (user_id : option Z) (s : system)
  : option (job dict system) :=
  delay fuel
    (fun req => task_envoyer_sms (hws (retries req)) req canne_id contenu user_id) s.

End Tasks.

(** ** apps/contacts/views.py *)

Module ContactViews.
Import Py Models.

(** What a view sends back: the bodies that the source builds, the answer
    of the framework to Http404, whose wording belongs to the framework and
    its language setting, and its answer to an exception that no handler
    of the view catches. *)
Inductive payload :=
| Detail (detail : string)
| Error (error : string)
| Registered (id index : Z) (message : string)
| Removed (message : string) (details : Contact) (index_libere : option Z)
| NotFound
| ServerError.

Record Response := {
  data : payload;
  status : Z
}.

(** range(a, b) *)
Definition range (a b : Z) : list Z :=
  map (fun k => a + Z.of_nat k) (seq 0 (Z.to_nat (b - a))).

(** i in indices_occupes *)
Definition index_in (i : Z) (indices_occupes : list (option Z)) : bool :=
  existsb (fun o => match o with Some j => j =? i | None => false end) indices_occupes.

(** next((i for i in range(1, 6) if i not in indices_occupes), None) *)
Definition index_libre (indices_occupes : list (option Z)) : option Z :=
  find (fun i => negb (index_in i indices_occupes)) (range 1 6).

Section Views.
(** [str.upper] of Python, whose Unicode case mapping is not reproduced. *)
Variable upper : str -> str.

(** request.data.get('nom', 'Sans nom'). [request_nom] is what the body of
    the request holds under the key nom: [None] when the key is missing,
    [Some None] for null, [Some (Some n)] for the string n (a value of
    another JSON type reaches the column as the string str(value)). The
    default stands for a missing key only. *)
Definition get_nom (request_nom : option (option str)) : option str :=
  match request_nom with
  | Some v => v
  | None => Some (lit "Sans nom")
  end.

(** RegisterContactViaSMSAPIView.post, under @transaction.atomic: nothing
    catches an exception of the creation, the transaction is rolled back
    and the framework answers 500. *)
Definition RegisterContactViaSMSAPIView_post (request_nom : option (option str))
    (canne_id : Z) (role numero_contact : str) (d : database)
  : Response * database :=
  let nom_contact := get_nom request_nom in
  match Canne_objects_get canne_id d with
  | None => ({| data := Detail "Canne non trouvée."; status := 404 |}, d)
  | Some c =>
      if exists_ (Contact_filter_canne_telephone c numero_contact d) then
        ({| data := Detail "Ce contact existe déjà pour cette canne."; status := 400 |}, d)
      else
        let indices_occupes := map id_microcontroleur (Contact_filter_canne c d) in
        match index_libre indices_occupes with
        | None =>
            ({| data := Detail "Mémoire de la canne pleine (5 max)."; status := 400 |}, d)
        | Some i =>
            match Contact_objects_create c nom_contact numero_contact (upper role) i true d
            with
            | Some (contact, d') =>
                ({| data := Registered (contact_pk contact) i
                              "Contact enregistré avec succès en base de données.";
                    status := 201 |}, d')
            | None => ({| data := ServerError; status := 500 |}, d)
            end
        end
  end.
End Views.

(** DeleteContactAPIView.post *)
Definition DeleteContactAPIView_post (canne_id contact_id : Z) (role : str) (d : database)
  : Response * database :=
  if negb (str_eqb role (lit "SUPER_ADMIN")) then
    ({| data := Error "Autorisation refusée. Seul le SUPER_ADMIN peut supprimer.";
        status := 403 |}, d)
  else
    match Contact_filter_id_canne contact_id canne_id d with
    | [] =>
        (* get_object_or_404 raises Http404, which the framework answers *)
        ({| data := NotFound; status := 404 |}, d)
    | contact_instance :: _ =>
        let index_libere := id_microcontroleur contact_instance in
        ({| data := Removed "Contact supprimé avec succès." contact_instance index_libere;
            status := 200 |},
         Contact_delete contact_instance d)
    end.

End ContactViews.


(** ** Vocabulary of the statements *)

Module Spec.
Import Py Serial Models.

(** [p] occurs in [s] as a contiguous run. *)
Definition substring (p s : str) : Prop := exists a b, s = a ++ p ++ b.

(** The success test of the exchange on the decoded response. *)
Definition has_token (reponse : str) : Prop :=
  substring (lit "OK") reponse \/ substring (lit "+CMGS:") reponse.

(** The events that act on the link: opening, writing, closing. *)
Definition is_link_op (ev : event) : bool :=
  match ev with
  | EvOpen _ _ _ | EvWrite _ | EvClose => true
  | _ => false
  end.

Definition link_ops (tr : list event) : list event := filter is_link_op tr.

(** The line printed on the simulated path only. *)
Definition is_mode_test (ev : event) : bool :=
  match ev with
  | EvLog (Stdout_mode_test _ _ _) => true
  | _ => false
  end.

(** Index [i] is held by a contact of cane [c]. *)
Definition assigned (c : Canne) (d : database) (i : Z) : Prop :=
  exists k, In k (contacts d) /\ canne k = canne_pk c /\ id_microcontroleur k = Some i.

(** Meta.unique_together = [['canne', 'telephone']] *)
Definition unique_together (d : database) : Prop :=
  NoDup (map (fun k => (canne k, telephone k)) (contacts d)).

(** The name of a registration is one the table takes: a string that is
    text of at most 100 characters, or the default when the body of the
    request has no key nom. *)
Definition nom_storable (request_nom : option (option str)) : Prop :=
  exists n, ContactViews.get_nom request_nom = Some n /\ fits 100 n = true.

(** The row that a registration builds is one the table takes: the name
    is, and the number and the role in upper case are text of at most 20
    characters. *)
Definition storable (upper : str -> str) (request_nom : option (option str))
    (role numero_contact : str) : Prop :=
  nom_storable request_nom
  /\ fits 20 numero_contact = true
  /\ fits 20 (upper role) = true.

End Spec.

(** ** Sample hardware and data *)

Module Samples.
Import Py Serial Models.

(** A modem that is plugged in and answers [r]. *)
Definition hw_live (r : bytes) : hardware :=
  {| on_open := None; on_write := fun _ => None; on_read_all := Ok r |}.

(** No device on the port: serial.Serial raises. *)
Definition hw_absent : hardware :=
  {| on_open := Some (SerialException "could not open port /dev/ttyUSB0");
     on_write := fun _ => None;
     on_read_all := Ok [] |}.

(** The device is unplugged during the exchange: the third write raises. *)
Definition hw_unplugged : hardware :=
  {| on_open := None;
     on_write := fun k => if (k =? 2)%nat then Some (SerialException "write failed") else None;
     on_read_all := Ok [] |}.

(** Reading fails with an error that is not a SerialException. *)
Definition hw_broken : hardware :=
  {| on_open := None;
     on_write := fun _ => None;
     on_read_all := Raise (OtherException "OSError") |}.

Definition numero_canne : str := lit "+237699999999".
Definition commande : str := lit "CONF:1:FAMILLE:+237600000000".

Definition canne_1 : Canne :=
  {| canne_pk := 1; numero_gsm := numero_canne; statut := "ACTIVE";
     derniere_communication := None |}.

Definition db_1 : database :=
  {| cannes := [canne_1]; contacts := []; sms_logs := []; contact_seq := 1 |}.

Definition sys_1 : Tasks.system := {| Tasks.db := db_1; Tasks.console := [] |}.

(** Registration of a contact of cane 1 with telephone [t]. *)
Definition register (t : string) (d : database) : ContactViews.Response * database :=
  ContactViews.RegisterContactViaSMSAPIView_post (fun s => s) None 1
    (lit "FAMILLE") (lit t) d.

(** Cane 1 after the registration of five contacts, A to E. *)
Definition db_5 : database :=
  snd (register "+237600000005"
    (snd (register "+237600000004"
      (snd (register "+237600000003"
        (snd (register "+237600000002"
          (snd (register "+237600000001" db_1))))))))).

(** How many times the port was opened. *)
Definition opened (tr : list event) : nat :=
  List.length (filter (fun ev => match ev with EvOpen _ _ _ => true | _ => false end) tr).

End Samples.

(** ** apps/users/user.py and the permission methods of the models *)

Module Users.
Import Py Models.

(** [User], with the fields the methods below read. *)
Record User := {
  user_pk : Z;                                  (* id *)
  role : str;
  user_telephone : str;
  canne_associee : option Z
}.

(** The values of [User.Role]. *)
Definition SUPERADMIN : str := lit "SUPERADMIN".
Definition ADMIN : str := lit "ADMIN".
Definition CONTACT_TIERS : str := lit "CONTACT_TIERS".

Definition is_superadmin (u : User) : bool := str_eqb (role u) SUPERADMIN.

(** self.role in [self.Role.SUPERADMIN, self.Role.ADMIN] *)
Definition is_admin (u : User) : bool :=
  existsb (fun r => str_eqb (role u) r) [SUPERADMIN; ADMIN].

Definition can_delete_contact (u : User) : bool := is_superadmin u.
Definition can_modify_role (u : User) : bool := is_superadmin u.

(** Contact.peut_etre_modifie_par: [self.ajoute_par == user] compares two
    saved users by primary key and is false when [ajoute_par] is None. *)
Definition peut_etre_modifie_par (c : Contact) (u : User) : bool :=
  is_superadmin u ||
  match ajoute_par c with
  | Some p => p =? user_pk u
  | None => false
  end.

(** Contact.peut_etre_supprime_par *)
Definition peut_etre_supprime_par (c : Contact) (u : User) : bool := is_superadmin u.

(** Canne.est_active *)
Definition est_active (c : Canne) : bool := String.eqb (statut c) "ACTIVE".

End Users.

(** ** apps/canes/serializers.py *)

Module CanneSerializer.
Import Py.

Inductive validation :=
| Valid (value : str)
| ValidationError (detail : string).

(** s.replace(c, "") for a one-character [c]. *)
Definition remove_char (c : Z) (s : str) : str := filter (fun x => negb (x =? c)) s.

Definition SPACE : Z := 32.
Definition PLUS : Z := 43.

Section Validate.
(** Which characters [str.isdigit] counts as digits: the Unicode table of
    the interpreter, not reproduced here. *)
Variable isdigit_char : Z -> bool.

(** str.isdigit(): every character is a digit and there is at least one. *)
Definition isdigit (s : str) : bool :=
  match s with
  | [] => false
  | _ :: _ => forallb isdigit_char s
  end.

Definition validate_numero_gsm (value : str) : validation :=
  let numero := remove_char SPACE value in
  if negb (isdigit (remove_char PLUS numero)) then
    ValidationError
      "Le numéro GSM ne doit contenir que des chiffres et éventuellement un '+'."
  else if Z.of_nat (List.length numero) <? 8 then
    ValidationError "Le numéro GSM est trop court."
  else Valid numero.
End Validate.

(** The digits of ASCII, on which every interpreter agrees. *)
Definition ascii_digit (c : Z) : bool := (48 <=? c) && (c <=? 57).

End CanneSerializer.

(** ** apps/canes/views.py *)

Module CaneViews.
Import Py Models.

(** The tables, with the sequence that numbers the canes. *)
Record store := {
  tables : database;
  canne_seq : Z                                 (* next primary key of Canne *)
}.

Inductive payload :=
| Error (error : string)
| Invalid (errors : string)                     (* what the serializer objects to *)
| Registered (gsm : str) (id : Z)               (* status success, message, id *)
| Removed (numero_gsm : str)                    (* status success, message *)
| NotFound                                      (* the framework's answer to Http404 *)
| ServerError (exc : string).                   (* an exception no one catches *)

Record Response := {
  data : payload;
  status : Z
}.

(** canne.delete(): the row goes, and with it the rows that point to it
    with on_delete=CASCADE. Of those tables the contacts and the SMS logs
    are part of [database]. *)
Definition Canne_delete (c : Canne) (d : database) : database :=
  {| cannes := filter (fun c' => negb (canne_pk c' =? canne_pk c)) (cannes d);
     contacts := filter (fun k => negb (canne k =? canne_pk c)) (contacts d);
     sms_logs := filter (fun l => negb (log_canne l =? canne_pk c)) (sms_logs d);
     contact_seq := contact_seq d |}.

(** Canne.objects.create(numero_gsm=gsm, statut=statut) *)
Definition Canne_objects_create (gsm : str) (statut_ : string) (s : store)
  : Canne * store :=
  let row := {| canne_pk := canne_seq s; numero_gsm := gsm; statut := statut_;
                derniere_communication := None |} in
  (row,
   {| tables := {| cannes := cannes (tables s) ++ [row];
                   contacts := contacts (tables s);
                   sms_logs := sms_logs (tables s);
                   contact_seq := contact_seq (tables s) |};
      canne_seq := canne_seq s + 1 |}).

Section Register.
(** The body of the request and the verdict of CanneSerializer on it:
    either its errors or the validated numero_gsm and, if given, statut. *)
Variable Data : Type.
Variable is_valid : Data -> database -> string + (str * option string).

(** RegisterCaneAPIView.post *)
Definition RegisterCaneAPIView_post (request_data : Data) (role : str) (s : store)
  : Response * store :=
  if negb (str_eqb role (lit "SUPER_ADMIN")) then
    ({| data := Error "Action réservée au SUPER_ADMIN"; status := 403 |}, s)
  else
    match is_valid request_data (tables s) with
    | inl errors => ({| data := Invalid errors; status := 400 |}, s)
    | inr (gsm, statut_given) =>
        let statut_ := match statut_given with Some v => v | None => "ACTIVE"%string end in
        if exists_ (filter (fun c => str_eqb (numero_gsm c) gsm) (cannes (tables s))) then
          ({| data := Error "Cette canne existe déjà."; status := 400 |}, s)
        else
          let (canne_, s') := Canne_objects_create gsm statut_ s in
          ({| data := Registered gsm (canne_pk canne_); status := 201 |}, s')
    end.
End Register.

(** DeleteCaneAPIView.post *)
Definition DeleteCaneAPIView_post (numero_gsm_ role : str) (s : store)
  : Response * store :=
  if negb (str_eqb role (lit "SUPER_ADMIN")) then
    ({| data := Error "Action réservée au SUPER_ADMIN"; status := 403 |}, s)
  else
    match filter (fun c => str_eqb (numero_gsm c) numero_gsm_) (cannes (tables s)) with
    | [] =>
        (* get_object_or_404 raises Http404, which the framework answers *)
        ({| data := NotFound; status := 404 |}, s)
    | [c] =>
        ({| data := Removed numero_gsm_; status := 200 |},
         {| tables := Canne_delete c (tables s); canne_seq := canne_seq s |})
    | _ :: _ :: _ =>
        (* get() raises MultipleObjectsReturned *)
        ({| data := ServerError "MultipleObjectsReturned"; status := 500 |}, s)
    end.

End CaneViews.

(** ** Sequences of requests to the contact views *)

Module Sessions.
Import Py Models ContactViews.

Inductive request :=
| Register (request_nom : option (option str)) (canne_id : Z) (role numero_contact : str)
| Delete (canne_id contact_id : Z) (role : str).

Section Serve.
Variable upper : str -> str.

Definition serve (r : request) (d : database) : Response * database :=
  match r with
  | Register request_nom canne_id role numero_contact =>
      RegisterContactViaSMSAPIView_post upper request_nom canne_id role numero_contact d
  | Delete canne_id contact_id role =>
      DeleteContactAPIView_post canne_id contact_id role d
  end.

(** The requests served one after the other; the answers in order. *)
Fixpoint serve_all (rs : list request) (d : database) : list Response * database :=
  match rs with
  | [] => ([], d)
  | r :: rs' =>
      let (a, d1) := serve r d in
      let (answers, d2) := serve_all rs' d1 in
      (a :: answers, d2)
  end.
End Serve.

(** The cane a request is about. *)
Definition about (r : request) : Z :=
  match r with
  | Register _ canne_id _ _ => canne_id
  | Delete canne_id _ _ => canne_id
  end.

End Sessions.

(** ** Vocabulary of the further statements *)

Module Invariants.
Import Py Serial Models.

(** The indices held by the contacts of the cane numbered [cid], in table order. *)
Definition slots_of (cid : Z) (d : database) : list (option Z) :=
  map id_microcontroleur (filter (fun k => canne k =? cid) (contacts d)).

(** Every contact has an index of 1..5 and no two contacts of a cane share one. *)
Definition slot_table_ok (d : database) : Prop :=
  forall cid,
    NoDup (slots_of cid d)
    /\ Forall (fun o => exists i, o = Some i /\ 1 <= i <= 5) (slots_of cid d).

(** Primary keys of contacts are distinct and below the sequence. *)
Definition contact_pks_ok (d : database) : Prop :=
  NoDup (map contact_pk (contacts d))
  /\ Forall (fun k => contact_pk k < contact_seq d) (contacts d).

(** Primary keys and numbers of canes are distinct, keys below the sequence. *)
Definition cannes_ok (s : CaneViews.store) : Prop :=
  NoDup (map canne_pk (cannes (CaneViews.tables s)))
  /\ NoDup (map numero_gsm (cannes (CaneViews.tables s)))
  /\ Forall (fun c => canne_pk c < CaneViews.canne_seq s) (cannes (CaneViews.tables s)).

(** Every contact and every SMS log points to a cane of the table. *)
Definition references_ok (d : database) : Prop :=
  Forall (fun k => exists c, In c (cannes d) /\ canne_pk c = canne k) (contacts d)
  /\ Forall (fun l => exists c, In c (cannes d) /\ canne_pk c = log_canne l) (sms_logs d).

(** Time spent in time.sleep, in milliseconds. *)
Fixpoint slept (tr : list event) : Z :=
  match tr with
  | [] => 0
  | EvSleep ms :: tr' => ms + slept tr'
  | _ :: tr' => slept tr'
  end.

(** The octets written on the link, call by call. *)
Fixpoint written (tr : list event) : list bytes :=
  match tr with
  | [] => []
  | EvWrite data :: tr' => data :: written tr'
  | _ :: tr' => written tr'
  end.

(** The five commands of an exchange, for encoded number [n] and body [m]. *)
Definition commands (n m : bytes) : list bytes :=
  [lit "AT" ++ [CR];
   lit "AT+CMGF=1" ++ [CR];
   lit "AT+CMGS=" ++ [QUOTE] ++ n ++ [QUOTE; CR];
   m;
   [26]].

(** A string Python can hold and encode: code points, no surrogate. *)
Definition scalar (c : Z) : Prop :=
  0 <= c <= 0x10FFFF /\ ~ (0xD800 <= c <= 0xDFFF).

End Invariants.

(** ** Further sample data *)

Module Samples2.
Import Py Models Samples.

(** The sample tables with five contacts, and the sequence of canes. *)
Definition store_5 : CaneViews.store :=
  {| CaneViews.tables := db_5; CaneViews.canne_seq := 2 |}.

(** A second cane, without contact, beside the first and its five. *)
Definition canne_2 : Canne :=
  {| canne_pk := 2; numero_gsm := lit "+237688888888"; statut := "ACTIVE";
     derniere_communication := None |}.

Definition db_two : database :=
  {| cannes := [canne_1; canne_2]; contacts := contacts db_5;
     sms_logs := []; contact_seq := contact_seq db_5 |}.

(** A request body for the registration of a cane. *)
Record cane_form := {
  form_numero : option str;
  form_statut : option string
}.

(** A serializer reduced to the presence of numero_gsm and to
    validate_numero_gsm on ASCII digits. *)
Definition form_is_valid (f : cane_form) (d : database)
  : string + (str * option string) :=
  match form_numero f with
  | None => inl "numero_gsm: This field is required."%string
  | Some v =>
      match CanneSerializer.validate_numero_gsm CanneSerializer.ascii_digit v with
      | CanneSerializer.Valid n => inr (n, form_statut f)
      | CanneSerializer.ValidationError e => inl e
      end
  end.

End Samples2.

(* ===================================================================== *)
(** * Part II. Properties                                                 *)
(* ===================================================================== *)

(** ** Strings *)

Section StrFacts.
Import Py Spec.

Lemma str_eqb_eq (a b : str) : str_eqb a b = true <-> a = b.
Proof.
  revert b; induction a as [|x a IH]; intros [|y b]; simpl; split;
    try congruence; try reflexivity.
  - rewrite andb_true_iff, Z.eqb_eq, IH. intros [-> ->]. reflexivity.
  - intros [= -> ->]. rewrite Z.eqb_refl. simpl. apply IH. reflexivity.
Qed.

Lemma str_eqb_refl (a : str) : str_eqb a a = true.
Proof. apply str_eqb_eq. reflexivity. Qed.

Lemma startswith_spec (p s : str) :
  startswith p s = true <-> exists b, s = p ++ b.
Proof.
  revert s; induction p as [|x p IH]; intros s.
  - simpl. split; [exists s; reflexivity | reflexivity].
  - destruct s as [|y s]; simpl.
    + split; [discriminate | intros [b Hb]; discriminate].
    + rewrite andb_true_iff, Z.eqb_eq, IH. split.
      * intros [-> [b ->]]. exists b. reflexivity.
      * intros [b [= -> ->]]. split; [reflexivity | exists b; reflexivity].
Qed.

Lemma contains_spec (p s : str) : contains p s = true <-> substring p s.
Proof.
  unfold substring. induction s as [|y s IH].
  - simpl. rewrite orb_false_r, startswith_spec. split.
    + intros [b Hb]. exists [], b. exact Hb.
    + intros [a [b Hab]]. destruct a; [exists b; exact Hab | discriminate].
  - cbn [contains]. rewrite orb_true_iff, startswith_spec, IH. split.
    + intros [[b Hb] | [a [b Hab]]].
      * exists [], b. exact Hb.
      * exists (y :: a), b. simpl. rewrite Hab. reflexivity.
    + intros [[|z a] [b Hab]].
      * left. exists b. exact Hab.
      * right. injection Hab as _ Hs. exists a, b. exact Hs.
Qed.

Lemma encode_app (a b : str) :
  encode (a ++ b) =
  match encode a, encode b with
  | Some x, Some y => Some (x ++ y)
  | _, _ => None
  end.
Proof.
  induction a as [|c a IH]; simpl.
  - destruct (encode b); reflexivity.
  - rewrite IH. destruct (encode_char c), (encode a), (encode b);
      try reflexivity. rewrite app_assoc. reflexivity.
Qed.

(** The address command is the literal frame around the encoded number. *)
Lemma encode_cmd_numero (numero : str) (n : bytes) :
  encode numero = Some n ->
  encode (lit "AT+CMGS=" ++ [QUOTE] ++ numero ++ [QUOTE; CR])
  = Some (lit "AT+CMGS=" ++ [QUOTE] ++ n ++ [QUOTE; CR]).
Proof.
  intros Hn. rewrite !encode_app, Hn. reflexivity.
Qed.

End StrFacts.

(** ** The decoder keeps ASCII text *)

Section DecodeFacts.
Import Py Spec.

Lemma ascii_not_continuation (x : Z) : x < 0x80 -> is_continuation x = false.
Proof. intros H. unfold is_continuation. destruct (Z.leb_spec 0x80 x); [lia | reflexivity]. Qed.

Lemma decode_ignore_ascii (x : Z) (t : bytes) :
  x < 0x80 -> decode_ignore (x :: t) = x :: decode_ignore t.
Proof.
  intros H. cbn [decode_ignore]. destruct (Z.ltb_spec x 0x80); [reflexivity | lia].
Qed.

(** The octets of [t] that come before the suffix [x :: rest]. *)
Ltac prefix_before t x rest :=
  lazymatch t with
  | x :: rest => constr:(@nil Z)
  | ?l ++ x :: rest => constr:(l)
  | ?c :: ?t' => let p := prefix_before t' x rest in constr:(c :: p)
  end.

(** Whatever precedes an ASCII octet, decoding resumes exactly at it: no
    sequence, valid or broken, ever swallows it. *)
Lemma decode_ignore_resume (n : nat) :
  forall (a : bytes) (x : Z) (rest : bytes),
    (List.length a <= n)%nat -> x < 0x80 ->
    exists pre, decode_ignore (a ++ x :: rest) = pre ++ decode_ignore (x :: rest).
Proof.
  induction n as [|n IH]; intros a x rest Hlen Hx.
  - destruct a; [exists []; reflexivity | simpl in Hlen; lia].
  - destruct a as [|ch a1]; [exists []; reflexivity|].
    pose proof (ascii_not_continuation x Hx) as Hc.
    assert (Hb3 : forall c, bad_second3 c x = true)
      by (intros c; unfold bad_second3; rewrite Hc; reflexivity).
    assert (Hb4 : forall c, bad_second4 c x = true)
      by (intros c; unfold bad_second4; rewrite Hc; reflexivity).
    assert (IH' : forall l, (List.length l <= n)%nat ->
               exists pre, decode_ignore (l ++ x :: rest) = pre ++ decode_ignore (x :: rest))
      by (intros l Hl; apply IH; assumption).
    clear IH. cbn [List.length] in Hlen.
    remember (decode_ignore (x :: rest)) as target eqn:Htarget in *.
    cbn [app]. remember (a1 ++ x :: rest) as t1 eqn:Ht1.
    cbn [decode_ignore]. subst t1.
    repeat match goal with
      | |- context [is_continuation x] => rewrite Hc; cbn [negb]
      | |- context [bad_second3 _ x] => rewrite Hb3
      | |- context [bad_second4 _ x] => rewrite Hb4
      | |- context [match ?l ++ _ with _ => _ end] =>
          destruct l; cbn [app List.length] in *
      | |- context [if ?b then _ else _] => destruct b
      end;
    try (exists []; reflexivity);
    match goal with
    | |- exists pre, ?c :: decode_ignore ?t = _ =>
        cut (exists pre, decode_ignore t = pre ++ target);
        [ intros [p ->]; exists (c :: p); reflexivity | ]
    | _ => idtac
    end;
    match goal with
    | |- exists pre, decode_ignore ?t = _ =>
        let p := prefix_before t x rest in
        subst target; apply (IH' p); cbn [List.length]; lia
    end.
Qed.

Lemma decode_ignore_ascii_run (p : str) (t : bytes) :
  Forall (fun x => x < 0x80) p -> decode_ignore (p ++ t) = p ++ decode_ignore t.
Proof.
  induction 1 as [|x p Hx _ IH]; [reflexivity|].
  cbn [app]. rewrite decode_ignore_ascii by exact Hx. rewrite IH. reflexivity.
Qed.

(** An ASCII word present in the octets read is present in the decoded text. *)
Lemma decode_ignore_keeps (p : str) (raw : bytes) :
  p <> [] -> Forall (fun x => x < 0x80) p ->
  substring p raw -> substring p (decode_ignore raw).
Proof.
  intros Hp Hascii [a [b ->]].
  destruct p as [|x p]; [congruence|].
  inversion Hascii as [|? ? Hx Hrest]; subst.
  destruct (decode_ignore_resume (List.length a) a x (p ++ b) (Nat.le_refl _) Hx) as [pre Hpre].
  change ((x :: p) ++ b) with (x :: p ++ b). rewrite Hpre.
  change (x :: p ++ b) with ((x :: p) ++ b).
  rewrite decode_ignore_ascii_run by exact Hascii.
  exists pre, (decode_ignore b). reflexivity.
Qed.

(** The converse fails: octets that are not valid UTF-8 vanish, and what
    they separated becomes adjacent. *)
Example decode_ignore_joins :
  decode_ignore [79; 255; 75] = lit "OK" /\ ~ substring (lit "OK") [79; 255; 75].
Proof.
  split; [reflexivity|].
  intros H. apply contains_spec in H. discriminate H.
Qed.

End DecodeFacts.

(** ** The exchange of [envoyer_sms_physique] *)

Section ServiceFacts.
Import Py Serial GSMHardwareService Spec Samples.

(** Unfolds the service down to the answers of the hardware. *)
Ltac unfold_service :=
  cbv beta iota zeta delta
    [envoyer_sms_physique exchange handlers print_ cleanup fresh try_finally try_except
     bind ret raise emit sleep log Serial_ write read_all close of_option
     ser nwrites trace fst snd].

(** Splits on the innermost answer that is still unknown. *)
Ltac case_step :=
  match goal with
  | |- context [match ?x with _ => _ end] =>
      lazymatch x with
      | context [match _ with _ => _ end] => fail
      | _ => destruct x eqn:?; unfold_service
      end
  end.

Ltac all_paths := unfold_service; repeat case_step.

(** The events already recorded have no influence on a run. *)
Lemma envoyer_fresh hw numero message tr :
  envoyer_sms_physique hw numero message (fresh tr) =
  (fst (envoyer_sms_physique hw numero message (fresh [])),
   {| ser := ser (snd (envoyer_sms_physique hw numero message (fresh [])));
      nwrites := nwrites (snd (envoyer_sms_physique hw numero message (fresh [])));
      trace := tr ++ trace (snd (envoyer_sms_physique hw numero message (fresh []))) |}).
Proof.
  all_paths; rewrite <- ?app_assoc; reflexivity.
Qed.

(** The MODE TEST line can be printed exactly when the number and the
    message can be encoded. *)
Lemma encode_mode_test_line numero message :
  encode (mode_test_line numero message) = None
  <-> encode numero = None \/ encode message = None.
Proof.
  unfold mode_test_line. rewrite !encode_app.
  destruct (encode numero), (encode message); cbn; split;
    try discriminate; try tauto; intros [H | H]; discriminate H.
Qed.

Lemma mode_test_line_printable numero message :
  encode numero <> None -> encode message <> None ->
  exists l, encode (mode_test_line numero message) = Some l.
Proof.
  intros Hn Hm.
  destruct (encode (mode_test_line numero message)) as [l|] eqn:E; [exists l; reflexivity|].
  apply encode_mode_test_line in E. tauto.
Qed.

(** With a number and a message that can be encoded, no exception leaves
    the service. *)
Lemma envoyer_returns hw numero message fr :
  encode numero <> None -> encode message <> None ->
  exists b fr', envoyer_sms_physique hw numero message fr = (Ok b, fr').
Proof.
  intros Hn Hm.
  destruct (mode_test_line_printable numero message Hn Hm) as [l Hl].
  unfold_service. rewrite ?Hl.
  repeat (case_step; rewrite ?Hl); eexists; eexists; reflexivity.
Qed.

(** The handlers map the two classes of exceptions to [True] and [False],
    unless the MODE TEST line cannot be printed. *)
Lemma envoyer_after_exchange hw numero message tr r fr :
  exchange hw numero message (fresh tr) = (r, fr) ->
  fst (envoyer_sms_physique hw numero message (fresh tr)) =
  match r with
  | Ok b => Ok b
  | Raise (SerialException _) =>
      match encode (mode_test_line numero message) with
      | Some _ => Ok true
      | None => Raise UnicodeEncodeError
      end
  | Raise (OtherException _) => Ok false
  end.
Proof.
  unfold envoyer_sms_physique, try_finally, try_except.
  change {| ser := None; nwrites := 0; trace := trace (fresh tr) |} with (fresh tr).
  intros ->.
  destruct r as [b | [d | d]];
    unfold handlers, print_, cleanup, bind, log, emit, ret, raise, close;
    cbn [ser]; try destruct (encode (mode_test_line numero message));
    destruct (ser fr) as [[|]|]; reflexivity.
Qed.

(** A port that was opened is closed when the service is left, with a
    value or with an exception, and closing is the last thing done; a port
    that never opened sees no operation. *)
Lemma envoyer_closes_port hw numero message tr :
  let run := envoyer_sms_physique hw numero message (fresh tr) in
  (on_open hw = None ->
   ser (snd run) = Some false /\ exists pre, trace (snd run) = pre ++ [EvClose])
  /\ (on_open hw <> None ->
      ser (snd run) = None /\ link_ops (trace (snd run)) = link_ops tr).
Proof.
  intros run. subst run. split.
  - all_paths; try discriminate; intros _; (split; [reflexivity | eexists; reflexivity]).
  - all_paths; try congruence; intros _; (split; [reflexivity|]);
      unfold link_ops; rewrite !filter_app; cbn [filter is_link_op];
      rewrite ?app_nil_r; reflexivity.
Qed.


(** C5. On a live link (the port opens and the five writes go through) the
    octets written for number N and message M are, in this order, AT\r,
    AT+CMGF=1\r, AT+CMGS="N"\r, the body M and the single octet 26; the
    port is opened once before the first write and closed once after the
    last, whatever the modem answers. *)
Theorem C5_wire_sequence hw numero message n m tr :
  on_open hw = None ->
  (forall k, (k < 5)%nat -> on_write hw k = None) ->
  encode numero = Some n ->
  encode message = Some m ->
  link_ops (trace (snd (envoyer_sms_physique hw numero message (fresh tr)))) =
  link_ops tr ++
  [EvOpen PORT BAUD_RATE 5;
   EvWrite (lit "AT" ++ [CR]);
   EvWrite (lit "AT+CMGF=1" ++ [CR]);
   EvWrite (lit "AT+CMGS=" ++ [QUOTE] ++ n ++ [QUOTE; CR]);
   EvWrite m;
   EvWrite [26];
   EvClose].
Proof.
  intros Hopen Hw Hn Hm.
  unfold_service.
  rewrite Hopen, (Hw 0%nat), (Hw 1%nat) by lia.
  rewrite (encode_cmd_numero numero n Hn). unfold_service.
  rewrite (Hw 2%nat), Hm by lia. unfold_service.
  rewrite (Hw 3%nat), (Hw 4%nat) by lia.
  repeat case_step;
    unfold link_ops; rewrite !filter_app; cbn [filter is_link_op];
    rewrite ?app_nil_r, <- ?app_assoc; reflexivity.
Qed.

(** The sequence on a modem that answers +CMGS: 12, for the sample cane. *)
Lemma C5_wire_sequence_witness :
  link_ops (trace (snd (envoyer_sms_physique (hw_live (lit "+CMGS: 12"))
                          numero_canne commande (fresh [])))) =
  [EvOpen "/dev/ttyUSB0" 9600 5;
   EvWrite (lit "AT" ++ [13]);
   EvWrite (lit "AT+CMGF=1" ++ [13]);
   EvWrite (lit "AT+CMGS=" ++ [34] ++ lit "+237699999999" ++ [34; 13]);
   EvWrite (lit "CONF:1:FAMILLE:+237600000000");
   EvWrite [26];
   EvClose].
Proof.
  apply (C5_wire_sequence (hw_live (lit "+CMGS: 12")) numero_canne commande
           numero_canne commande []);
    [reflexivity | intros k _; reflexivity | reflexivity | reflexivity].
Defined.

(** C4 (as stated, refuted). The modem answers the three octets 79, 255,
    75. Neither OK nor +CMGS: occurs in the octets read, yet the exchange
    is confirmed: the octet 255 is not UTF-8, decode(errors='ignore') drops
    it, and O and K are adjacent in the text that is tested. *)
Lemma C4_counterexample :
  on_read_all (hw_live [79; 255; 75]) = Ok [79; 255; 75]
  /\ ~ substring (lit "OK") [79; 255; 75]
  /\ ~ substring (lit "+CMGS:") [79; 255; 75]
  /\ fst (envoyer_sms_physique (hw_live [79; 255; 75]) numero_canne commande (fresh []))
     = Ok true.
Proof.
  split; [reflexivity | split; [|split; [|reflexivity]]];
    intros H; apply contains_spec in H; discriminate H.
Qed.

(** C4 (amended). When the exchange runs to its end (port opened, every
    write done, the response read), the service answers True exactly when
    the response decoded as UTF-8, the octets that cannot be decoded being
    dropped, contains OK or +CMGS:, and False otherwise; an empty response,
    as a read timeout leaves, gives False, and either word among the octets
    read gives True. *)
Theorem C4_confirmed_iff_token hw numero message raw tr :
  on_open hw = None ->
  (forall k, (k < 5)%nat -> on_write hw k = None) ->
  encode numero <> None ->
  encode message <> None ->
  on_read_all hw = Ok raw ->
  let outcome := fst (envoyer_sms_physique hw numero message (fresh tr)) in
  (outcome = Ok true <-> has_token (decode_ignore raw)) /\
  (outcome = Ok false <-> ~ has_token (decode_ignore raw)) /\
  (raw = [] -> outcome = Ok false) /\
  (substring (lit "OK") raw \/ substring (lit "+CMGS:") raw -> outcome = Ok true).
Proof.
  intros Hopen Hw Hn Hm Hread outcome.
  destruct (encode numero) as [n|] eqn:En; [clear Hn | congruence].
  destruct (encode message) as [m|] eqn:Em; [clear Hm | congruence].
  assert (Hout : outcome =
                 Ok (contains (lit "OK") (decode_ignore raw)
                     || contains (lit "+CMGS:") (decode_ignore raw))).
  { subst outcome. unfold_service.
    rewrite Hopen, (Hw 0%nat), (Hw 1%nat) by lia.
    rewrite (encode_cmd_numero numero n En). unfold_service.
    rewrite (Hw 2%nat), Em by lia. unfold_service.
    rewrite (Hw 3%nat), (Hw 4%nat), Hread by lia.
    unfold_service. case_step; reflexivity. }
  assert (Htok : contains (lit "OK") (decode_ignore raw)
                 || contains (lit "+CMGS:") (decode_ignore raw) = true
                 <-> has_token (decode_ignore raw)).
  { unfold has_token. rewrite orb_true_iff, !contains_spec. reflexivity. }
  rewrite Hout. repeat split.
  - intros [= H]. apply Htok, H.
  - intros H. apply Htok in H. rewrite H. reflexivity.
  - intros [= H] Ht. apply Htok in Ht. congruence.
  - intros H. destruct (contains (lit "OK") (decode_ignore raw)
                        || contains (lit "+CMGS:") (decode_ignore raw)) eqn:E;
      [exfalso; apply H, Htok; reflexivity | reflexivity].
  - intros ->. reflexivity.
  - intros H.
    assert (Ht : has_token (decode_ignore raw)).
    { destruct H as [H | H]; [left | right];
        (apply decode_ignore_keeps;
         [discriminate | repeat constructor; reflexivity | exact H]). }
    apply Htok in Ht. rewrite Ht. reflexivity.
Qed.

(** A response +CMGS: 12 is confirmed; an empty one, as after a timeout, is not. *)
Lemma C4_confirmed_iff_token_witness :
  fst (envoyer_sms_physique (hw_live (lit "+CMGS: 12")) numero_canne commande (fresh []))
  = Ok true
  /\ fst (envoyer_sms_physique (hw_live []) numero_canne commande (fresh [])) = Ok false.
Proof.
  split.
  - apply (C4_confirmed_iff_token (hw_live (lit "+CMGS: 12")) numero_canne commande
             (lit "+CMGS: 12") []);
      [reflexivity | intros k _; reflexivity | discriminate | discriminate | reflexivity | ].
    right. exists [], (lit " 12"). reflexivity.
  - apply (C4_confirmed_iff_token (hw_live []) numero_canne commande [] []);
      [reflexivity | intros k _; reflexivity | discriminate | discriminate
      | reflexivity | reflexivity].
Defined.

(** C1 (as stated, refuted). The port opens, then the third write raises a
    SerialException: this transport fault in the middle of the exchange is
    answered True, not False. And the value returned when the hardware is
    absent is the very value returned on a real confirmation. *)
Lemma C1_counterexample :
  on_open hw_unplugged = None /\
  fst (exchange hw_unplugged numero_canne commande (fresh []))
  = Raise (SerialException "write failed") /\
  fst (envoyer_sms_physique hw_unplugged numero_canne commande (fresh [])) = Ok true /\
  fst (envoyer_sms_physique hw_absent numero_canne commande (fresh []))
  = fst (envoyer_sms_physique (hw_live (lit "+CMGS: 12")) numero_canne commande (fresh [])).
Proof. repeat split. Qed.

(** C1 (amended). If opening the port raises a SerialException and the
    MODE TEST line can be printed (the number and the message can be
    encoded), the service answers True without touching the link, and
    records the simulation: an error line and the MODE TEST line. The value
    returned is the same True as on a real confirmation; the two differ by
    what is logged only: a confirmation by the modem logs the success line
    and never the MODE TEST line. Every exception that is not a
    SerialException, raised anywhere in the exchange, is answered False. *)
Theorem C1_simulated_success hw numero message tr :
  let run := envoyer_sms_physique hw numero message (fresh tr) in
  (forall d, on_open hw = Some (SerialException d) ->
     encode numero <> None -> encode message <> None ->
     run = (Ok true,
            {| ser := None; nwrites := 0;
               trace := tr ++ [EvLog (Error_acces_module PORT d);
                               EvLog (Stdout_mode_test PORT numero message)] |}))
  /\ (fst (exchange hw numero message (fresh tr)) = Ok true ->
      fst run = Ok true /\
      exists new, trace (snd run) = tr ++ new /\
                  existsb is_mode_test new = false /\
                  In (EvLog (Info_sms_envoye numero)) new)
  /\ (forall d, fst (exchange hw numero message (fresh tr)) = Raise (OtherException d) ->
      fst run = Ok false).
Proof.
  intros run. subst run. split; [|split].
  - intros d Hd Hn Hm.
    destruct (mode_test_line_printable numero message Hn Hm) as [l Hl].
    unfold_service. rewrite Hd. unfold_service. rewrite Hl.
    rewrite <- app_assoc. reflexivity.
  - all_paths; try discriminate; intros _; split; try reflexivity;
      rewrite <- ?app_assoc; cbn [app];
      (eexists; split; [reflexivity | split; [reflexivity | cbn; tauto]]).
  - intros d Hd.
    destruct (exchange hw numero message (fresh tr)) as [r fr] eqn:E.
    rewrite (envoyer_after_exchange hw numero message tr r fr E).
    cbn [fst] in Hd. rewrite Hd. reflexivity.
Qed.

(** The empty port, a confirming modem, a failing read and a string that
    cannot be encoded. *)
Lemma C1_simulated_success_witness :
  envoyer_sms_physique hw_absent numero_canne commande (fresh [])
  = (Ok true,
     {| ser := None; nwrites := 0;
        trace := [EvLog (Error_acces_module "/dev/ttyUSB0"
                           "could not open port /dev/ttyUSB0");
                  EvLog (Stdout_mode_test "/dev/ttyUSB0" numero_canne commande)] |})
  /\ fst (envoyer_sms_physique (hw_live (lit "OK")) numero_canne commande (fresh []))
     = Ok true
  /\ fst (envoyer_sms_physique hw_broken numero_canne commande (fresh [])) = Ok false
  /\ fst (envoyer_sms_physique (hw_live (lit "OK")) numero_canne [0xD800] (fresh []))
     = Ok false.
Proof.
  split; [|split; [|split]].
  - apply (proj1 (C1_simulated_success hw_absent numero_canne commande [])
             "could not open port /dev/ttyUSB0"%string);
      [reflexivity | discriminate | discriminate].
  - apply (proj1 (proj2 (C1_simulated_success (hw_live (lit "OK")) numero_canne
                           commande []))).
    reflexivity.
  - apply (proj2 (proj2 (C1_simulated_success hw_broken numero_canne commande []))
             "OSError"%string).
    reflexivity.
  - apply (proj2 (proj2 (C1_simulated_success (hw_live (lit "OK")) numero_canne
                           [0xD800] []))
             "UnicodeEncodeError"%string).
    reflexivity.
Defined.

(** C10 (the code departs from the claim). No device is on the port and
    the message holds a lone surrogate, as the JSON text "\ud800" gives:
    serial.Serial raises SerialException, its handler logs the error and
    prints the MODE TEST line, print raises UnicodeEncodeError inside the
    except clause, where the clause for Exception does not apply, and the
    exception reaches the caller: no boolean is returned. The same message
    on a port that opens is answered False. *)
Theorem C10_exception_escapes :
  envoyer_sms_physique hw_absent numero_canne [0xD800] (fresh [])
  = (Raise UnicodeEncodeError,
     {| ser := None; nwrites := 0;
        trace := [EvLog (Error_acces_module "/dev/ttyUSB0"
                           "could not open port /dev/ttyUSB0")] |})
  /\ (forall b, fst (envoyer_sms_physique hw_absent numero_canne [0xD800] (fresh []))
                <> Ok b)
  /\ fst (envoyer_sms_physique (hw_live (lit "OK")) numero_canne [0xD800] (fresh []))
     = Ok false.
Proof.
  split; [reflexivity | split; [intros b; discriminate | reflexivity]].
Qed.

End ServiceFacts.

(** ** The task and its retries *)

Section TaskFacts.
Import Py Serial GSMHardwareService Models Celery Tasks Spec Samples.

(** A run of the task writes no table. *)
Lemma task_envoyer_sms_db hw self canne_id contenu user_id s :
  db (snd (task_envoyer_sms hw self canne_id contenu user_id s)) = db s.
Proof.
  unfold task_envoyer_sms.
  destruct (Canne_objects_get canne_id (db s)) as [c|]; [|reflexivity].
  destruct (envoyer_sms_physique _ _ _ _) as [[[|] | e] fr]; reflexivity.
Qed.

(** A run on a known cane whose send is refused asks Celery for a retry. *)
Lemma task_rejected hw self canne_id contenu user_id s c :
  Canne_objects_get canne_id (db s) = Some c ->
  fst (envoyer_sms_physique hw (numero_gsm c) contenu (fresh [])) = Ok false ->
  exists tr,
    task_envoyer_sms hw self canne_id contenu user_id s
    = (retry max_retries self echec 60, logged s tr).
Proof.
  intros Hget Hsend. unfold task_envoyer_sms. rewrite Hget.
  rewrite envoyer_fresh, Hsend. eexists. reflexivity.
Qed.

(** A run on a known cane whose send is confirmed returns the success dict. *)
Lemma task_confirmed hw self canne_id contenu user_id s c :
  Canne_objects_get canne_id (db s) = Some c ->
  fst (envoyer_sms_physique hw (numero_gsm c) contenu (fresh [])) = Ok true ->
  exists tr,
    task_envoyer_sms hw self canne_id contenu user_id s
    = (Return [("status", "success")]%string, logged s tr).
Proof.
  intros Hget Hsend. unfold task_envoyer_sms. rewrite Hget.
  rewrite envoyer_fresh, Hsend. eexists. reflexivity.
Qed.

(** The tables are the same after a job, however many runs it took. *)
Lemma worker_db hws canne_id contenu user_id :
  forall fuel req s done delays j,
    worker fuel
      (fun req => task_envoyer_sms (hws (retries req)) req canne_id contenu user_id)
      req s done delays = Some j ->
    db (job_state j) = db s.
Proof.
  induction fuel as [|fuel IH]; intros req s done delays j; cbn [worker].
  - discriminate.
  - pose proof (task_envoyer_sms_db (hws (retries req)) req canne_id contenu user_id s)
      as Hdb.
    destruct (task_envoyer_sms _ _ _ _ _ _) as [[a | exc when next | exc] s'];
      cbn [snd] in Hdb.
    + intros [= <-]. exact Hdb.
    + intros H. rewrite (IH _ _ _ _ _ H). exact Hdb.
    + intros [= <-]. exact Hdb.
Qed.

(** With [n] retries left and every send refused, the job runs [n + 1]
    more times and then fails with the exception of the last run. *)
Lemma worker_rejected hws canne_id contenu user_id c :
  forall (n fuel r done : nat) (delays : list Z) (s : system),
    (r + n = 3)%nat -> (n < fuel)%nat ->
    Canne_objects_get canne_id (db s) = Some c ->
    (forall k, (k < 4)%nat ->
       fst (envoyer_sms_physique (hws k) (numero_gsm c) contenu (fresh [])) = Ok false) ->
    exists j,
      worker fuel
        (fun req => task_envoyer_sms (hws (retries req)) req canne_id contenu user_id)
        {| retries := r; called_directly := false |} s done delays = Some j
      /\ job_exit j = Failure echec
      /\ attempts j = (done + n + 1)%nat
      /\ countdowns j = delays ++ repeat 60 n
      /\ db (job_state j) = db s.
Proof.
  induction n as [|n IH]; intros fuel r done delays s Hr Hfuel Hget Hsend;
    (destruct fuel as [|fuel]; [lia|]); cbn [worker];
    destruct (task_rejected (hws r) {| retries := r; called_directly := false |}
                canne_id contenu user_id s c Hget (Hsend r ltac:(lia))) as [tr E];
    cbn [retries]; rewrite E; unfold retry, max_retries; cbn [retries called_directly].
  - assert (r = 3%nat) as -> by lia. cbn.
    eexists. split; [reflexivity|]. cbn.
    repeat split; [f_equal; lia | symmetry; apply app_nil_r].
  - destruct (Nat.ltb_spec 3 (S r)) as [Hlt | _]; [lia|].
    destruct (IH fuel (S r) (S done) (delays ++ [60]) (logged s tr))
      as [j [Hj [Hexit [Hatt [Hcd Hdb]]]]]; [lia | lia | exact Hget | exact Hsend |].
    exists j. split; [exact Hj|]. split; [exact Hexit|]. split; [rewrite Hatt; lia|].
    split; [rewrite Hcd, <- app_assoc; reflexivity | exact Hdb].
Qed.


(** C2 (as stated, refuted). A job on a known cane whose modem never
    confirms (every read times out with nothing) runs four times, not
    three: the port is opened a fourth time before the job fails. *)
Lemma C2_counterexample :
  option_map
    (fun j => (job_exit j, attempts j, opened (console (job_state j))))
    (submit 10 (fun _ => hw_live []) 1 commande None sys_1)
  = Some (Failure echec, 4%nat, 4%nat)
  /\ option_map attempts (submit 10 (fun _ => hw_live []) 1 commande None sys_1)
     <> Some 3%nat.
Proof.
  split; [vm_compute; reflexivity | vm_compute; discriminate].
Qed.

(** C2 (amended). A job on a known cane whose every send is refused fails
    for good after exactly four runs of the task: the first one and the
    three retries that max_retries = 3 allows. A fifth run never takes
    place, whatever time the worker is given. Each of the three retries is
    scheduled with a countdown of 60 seconds, and the job fails with the
    exception of the task. *)
Theorem C2_failure_after_four_runs hws canne_id contenu user_id s c fuel :
  Canne_objects_get canne_id (db s) = Some c ->
  (forall k, (k < 4)%nat ->
     fst (envoyer_sms_physique (hws k) (numero_gsm c) contenu (fresh [])) = Ok false) ->
  (4 <= fuel)%nat ->
  exists j,
    submit fuel hws canne_id contenu user_id s = Some j
    /\ job_exit j = Failure echec
    /\ attempts j = 4%nat
    /\ countdowns j = [60; 60; 60]
    /\ db (job_state j) = db s.
Proof.
  intros Hget Hsend Hfuel. unfold submit, delay.
  destruct (worker_rejected hws canne_id contenu user_id c 3 fuel 0 0 [] s)
    as [j [Hj [Hexit [Hatt [Hcd Hdb]]]]]; [lia | lia | exact Hget | exact Hsend |].
  exists j. repeat split; assumption.
Qed.

(** Four runs on a modem that stays silent. *)
Lemma C2_failure_after_four_runs_witness :
  exists j,
    submit 4 (fun _ => hw_live []) 1 commande None sys_1 = Some j
    /\ job_exit j = Failure echec
    /\ attempts j = 4%nat
    /\ countdowns j = [60; 60; 60]
    /\ db (job_state j) = db_1.
Proof.
  apply (C2_failure_after_four_runs (fun _ => hw_live []) 1 commande None sys_1
           canne_1 4);
    [reflexivity | intros k _; reflexivity | apply Nat.le_refl].
Defined.

(** C6 (as stated, refuted). The modem confirms at the first run: the job
    returns the success dict, and the cane still has no date of last
    communication. *)
Lemma C6_counterexample :
  derniere_communication canne_1 = None
  /\ option_map
       (fun j => (job_exit j, attempts j,
                  option_map derniere_communication
                    (Canne_objects_get 1 (db (job_state j)))))
       (submit 10 (fun _ => hw_live (lit "+CMGS: 12")) 1 commande None sys_1)
     = Some (Return [("status", "success")]%string, 1%nat, Some None).
Proof.
  split; [reflexivity | vm_compute; reflexivity].
Qed.

(** C6 (amended). When the send of a run is confirmed, the task returns the
    dict with status success, and leaves every table as it was: the cane,
    with its date of last communication, is the one that was read. *)
Theorem C6_success_returned_device_untouched hw self canne_id contenu user_id s c :
  Canne_objects_get canne_id (db s) = Some c ->
  fst (envoyer_sms_physique hw (numero_gsm c) contenu (fresh [])) = Ok true ->
  let out := task_envoyer_sms hw self canne_id contenu user_id s in
  fst out = Return [("status", "success")]%string
  /\ db (snd out) = db s
  /\ Canne_objects_get canne_id (db (snd out)) = Some c.
Proof.
  intros Hget Hsend out. subst out.
  destruct (task_confirmed hw self canne_id contenu user_id s c Hget Hsend) as [tr E].
  rewrite E. cbn [fst snd logged db]. repeat split. exact Hget.
Qed.

(** The first run on a modem that confirms. *)
Lemma C6_success_returned_device_untouched_witness :
  let out := task_envoyer_sms (hw_live (lit "+CMGS: 12"))
               {| retries := 0; called_directly := false |} 1 commande None sys_1 in
  fst out = Return [("status", "success")]%string
  /\ db (snd out) = db_1
  /\ Canne_objects_get 1 (db (snd out)) = Some canne_1.
Proof.
  apply (C6_success_returned_device_untouched (hw_live (lit "+CMGS: 12"))
           {| retries := 0; called_directly := false |} 1 commande None sys_1 canne_1);
    reflexivity.
Defined.

(** C7 (the code at the failing input). A job that succeeds and a job that
    uses up its retries both end with the table of SMS logs empty as it
    was: no entry was created, pending or final. *)
Theorem C7_no_log_entry :
  option_map
    (fun j => (job_exit j, sms_logs (db (job_state j))))
    (submit 10 (fun _ => hw_live (lit "+CMGS: 12")) 1 commande None sys_1)
  = Some (Return [("status", "success")]%string, [])
  /\ option_map
       (fun j => (job_exit j, attempts j, sms_logs (db (job_state j))))
       (submit 10 (fun _ => hw_live []) 1 commande None sys_1)
     = Some (Failure echec, 4%nat, []).
Proof.
  split; vm_compute; reflexivity.
Qed.

(** C8. A job whose cane identifier matches no cane stops at its first
    run: it returns status failed with reason not_found, no retry is
    scheduled, and nothing is done on the serial port. *)
Theorem C8_not_found_is_terminal hws canne_id contenu user_id s fuel :
  (forall c, In c (cannes (db s)) -> canne_pk c <> canne_id) ->
  (1 <= fuel)%nat ->
  submit fuel hws canne_id contenu user_id s =
  Some {| job_exit := Return [("status", "failed"); ("reason", "not_found")]%string;
          attempts := 1;
          countdowns := [];
          job_state := logged s (console s ++ [EvLog (Error_introuvable canne_id)]) |}.
Proof.
  intros Hnone Hfuel.
  assert (Hget : Canne_objects_get canne_id (db s) = None).
  { unfold Canne_objects_get.
    destruct (find _ (cannes (db s))) as [c|] eqn:E; [|reflexivity].
    apply find_some in E. destruct E as [Hin Heq].
    apply Z.eqb_eq in Heq. exfalso. exact (Hnone c Hin Heq). }
  destruct fuel as [|fuel]; [lia|].
  unfold submit, delay. cbn [worker]. unfold task_envoyer_sms.
  rewrite Hget. reflexivity.
Qed.

(** Cane 2 does not exist in the sample tables. *)
Lemma C8_not_found_is_terminal_witness :
  submit 1 (fun _ => hw_live (lit "OK")) 2 commande None sys_1 =
  Some {| job_exit := Return [("status", "failed"); ("reason", "not_found")]%string;
          attempts := 1;
          countdowns := [];
          job_state := {| db := db_1; console := [EvLog (Error_introuvable 2)] |} |}.
Proof.
  apply (C8_not_found_is_terminal (fun _ => hw_live (lit "OK")) 2 commande None sys_1 1).
  - intros c [<- | []]. discriminate.
  - apply Nat.le_refl.
Defined.

End TaskFacts.

(** ** The five indices of a cane *)

Section ContactFacts.
Import Py Models ContactViews Spec Samples.

Lemma exists_filter_false {A} (f : A -> bool) (l : list A) :
  exists_ (filter f l) = false <-> forall x, In x l -> f x = false.
Proof.
  induction l as [|a l IH]; cbn [filter].
  - split; [intros _ x [] | reflexivity].
  - destruct (f a) eqn:Ea; cbn [exists_].
    + split; [discriminate|]. intros H. rewrite <- Ea. apply H. left. reflexivity.
    + rewrite IH. split.
      * intros H x [<- | Hx]; [exact Ea | apply H, Hx].
      * intros H x Hx. apply H. right. exact Hx.
Qed.

Lemma exists_filter_true {A} (f : A -> bool) (l : list A) :
  exists_ (filter f l) = true <-> exists x, In x l /\ f x = true.
Proof.
  split.
  - destruct (filter f l) as [|x q] eqn:E; [discriminate|]. intros _.
    exists x. apply filter_In. rewrite E. left. reflexivity.
  - intros [x Hx]. apply filter_In in Hx.
    destruct (filter f l); [destruct Hx | reflexivity].
Qed.

(** Membership in the indices read from the table is being assigned. *)
Lemma index_in_assigned c d i :
  index_in i (map id_microcontroleur (Contact_filter_canne c d)) = true
  <-> assigned c d i.
Proof.
  unfold index_in, assigned, Contact_filter_canne.
  rewrite existsb_exists. split.
  - intros [o [Ho Hoi]]. apply in_map_iff in Ho. destruct Ho as [k [<- Hk]].
    apply filter_In in Hk. destruct Hk as [Hin Hc]. apply Z.eqb_eq in Hc.
    destruct (id_microcontroleur k) as [j|] eqn:Ej; [|discriminate].
    apply Z.eqb_eq in Hoi. subst j. exists k. repeat split; assumption.
  - intros [k [Hin [Hc Hi]]]. exists (Some i). split.
    + rewrite <- Hi. apply in_map. apply filter_In. split; [exact Hin|].
      apply Z.eqb_eq. exact Hc.
    + apply Z.eqb_refl.
Qed.

(** [index_libre] is the least of 1..5 that is not taken, if there is one. *)
Lemma index_libre_spec (occ : list (option Z)) :
  match index_libre occ with
  | Some i => 1 <= i <= 5 /\ index_in i occ = false
              /\ forall j, 1 <= j < i -> index_in j occ = true
  | None => forall j, 1 <= j <= 5 -> index_in j occ = true
  end.
Proof.
  unfold index_libre. change (range 1 6) with [1; 2; 3; 4; 5]. cbn [find].
  destruct (index_in 1 occ) eqn:E1; cbn [negb];
    [destruct (index_in 2 occ) eqn:E2; cbn [negb];
     [destruct (index_in 3 occ) eqn:E3; cbn [negb];
      [destruct (index_in 4 occ) eqn:E4; cbn [negb];
       [destruct (index_in 5 occ) eqn:E5; cbn [negb] | ] | ] | ] | ];
    try (split; [lia | split; [assumption|]]);
    intros j Hj;
    assert (Hcases : j = 1 \/ j = 2 \/ j = 3 \/ j = 4 \/ j = 5) by lia;
    repeat (destruct Hcases as [-> | Hcases]; [assumption || lia|]);
    subst; assumption || lia.
Qed.

(** An index that is free while all lower ones are taken is the one chosen. *)
Lemma index_libre_lowest (occ : list (option Z)) (i : Z) :
  1 <= i <= 5 -> index_in i occ = false ->
  (forall j, 1 <= j < i -> index_in j occ = true) ->
  index_libre occ = Some i.
Proof.
  intros Hi Hfree Hlow. pose proof (index_libre_spec occ) as H.
  destruct (index_libre occ) as [i'|].
  - destruct H as [Hi' [Hfree' Hlow']].
    destruct (Z.lt_trichotomy i i') as [Hlt | [-> | Hgt]].
    + rewrite Hlow' in Hfree by lia. discriminate.
    + reflexivity.
    + rewrite Hlow in Hfree' by lia. discriminate.
  - rewrite H in Hfree by lia. discriminate.
Qed.

(** What remains after a deletion. *)
Lemma Contact_delete_In k d k' :
  In k' (contacts (Contact_delete k d))
  <-> In k' (contacts d) /\ contact_pk k' <> contact_pk k.
Proof.
  unfold Contact_delete. cbn [contacts]. rewrite filter_In, negb_true_iff, Z.eqb_neq.
  reflexivity.
Qed.

(** The creation succeeds exactly on the rows that are storable. *)
Lemma create_cases upper request_nom role numero_contact c i d :
  (storable upper request_nom role numero_contact
   /\ exists n,
        get_nom request_nom = Some n
        /\ Contact_objects_create c (get_nom request_nom) numero_contact (upper role)
             i true d
           = Some (Contact_insert c n numero_contact (upper role) i true d))
  \/ (~ storable upper request_nom role numero_contact
      /\ Contact_objects_create c (get_nom request_nom) numero_contact (upper role)
           i true d = None).
Proof.
  unfold storable, nom_storable, Contact_objects_create.
  destruct (get_nom request_nom) as [n|].
  - destruct (fits 100 n) eqn:E1, (fits 20 numero_contact) eqn:E2,
             (fits 20 (upper role)) eqn:E3; cbn [andb];
      first [ left; split;
              [ split; [exists n; split; [reflexivity | assumption] | split; reflexivity]
              | exists n; split; reflexivity ]
            | right; split; [|reflexivity];
              intros [[n' [[= <-] H1]] [H2 H3]]; congruence ].
  - right. split; [|reflexivity]. intros [[n' [H _]] _]. discriminate H.
Qed.

(** The answer of the registration once the cane is known and the number new. *)
Lemma post_allocates upper request_nom canne_id role numero_contact d c :
  Canne_objects_get canne_id d = Some c ->
  (forall k, In k (contacts d) -> canne k = canne_pk c -> telephone k <> numero_contact) ->
  RegisterContactViaSMSAPIView_post upper request_nom canne_id role numero_contact d =
  match index_libre (map id_microcontroleur (Contact_filter_canne c d)) with
  | None => ({| data := Detail "Mémoire de la canne pleine (5 max)."; status := 400 |}, d)
  | Some i =>
      match Contact_objects_create c (get_nom request_nom) numero_contact (upper role)
              i true d with
      | Some (contact, d') =>
          ({| data := Registered (contact_pk contact) i
                        "Contact enregistré avec succès en base de données.";
              status := 201 |}, d')
      | None => ({| data := ServerError; status := 500 |}, d)
      end
  end.
Proof.
  intros Hget Hnew. unfold RegisterContactViaSMSAPIView_post. rewrite Hget.
  assert (Hdup : exists_ (Contact_filter_canne_telephone c numero_contact d) = false).
  { apply exists_filter_false. intros k Hk.
    apply andb_false_iff.
    destruct (canne k =? canne_pk c) eqn:Ec; [right | left; reflexivity].
    apply Z.eqb_eq in Ec.
    destruct (str_eqb (telephone k) numero_contact) eqn:Et; [|reflexivity].
    apply str_eqb_eq in Et. exfalso. exact (Hnew k Hk Ec Et). }
  rewrite Hdup. reflexivity.
Qed.

(** The same for a row that is storable: the row is stored. *)
Lemma post_allocates_storable upper request_nom canne_id role numero_contact d c :
  Canne_objects_get canne_id d = Some c ->
  (forall k, In k (contacts d) -> canne k = canne_pk c -> telephone k <> numero_contact) ->
  storable upper request_nom role numero_contact ->
  exists n,
    get_nom request_nom = Some n
    /\ RegisterContactViaSMSAPIView_post upper request_nom canne_id role numero_contact d =
       match index_libre (map id_microcontroleur (Contact_filter_canne c d)) with
       | None =>
           ({| data := Detail "Mémoire de la canne pleine (5 max)."; status := 400 |}, d)
       | Some i =>
           ({| data := Registered (contact_seq d) i
                         "Contact enregistré avec succès en base de données.";
               status := 201 |},
            snd (Contact_insert c n numero_contact (upper role) i true d))
       end.
Proof.
  intros Hget Hnew Hst.
  rewrite (post_allocates upper request_nom canne_id role numero_contact d c Hget Hnew).
  destruct (create_cases upper request_nom role numero_contact c 0 d)
    as [[_ [n [Hn _]]] | [Hno _]]; [|contradiction].
  exists n. split; [exact Hn|].
  destruct (index_libre _) as [i|]; [|reflexivity].
  destruct (create_cases upper request_nom role numero_contact c i d)
    as [[_ [n' [Hn' ->]]] | [Hno _]]; [|contradiction].
  assert (n' = n) by congruence. subst n'. reflexivity.
Qed.




(** C9. If the cane already has a contact with the requested number, the
    registration answers 400, contact already exists, before any index is
    looked for, and creates nothing. Whatever the request, a table in which
    no two contacts share cane and number is still so after the
    registration. *)
Theorem C9_duplicate_refused upper request_nom canne_id role numero_contact d :
  let out :=
    RegisterContactViaSMSAPIView_post upper request_nom canne_id role numero_contact d in
  (forall c,
     Canne_objects_get canne_id d = Some c ->
     (exists k, In k (contacts d) /\ canne k = canne_pk c /\ telephone k = numero_contact) ->
     out = ({| data := Detail "Ce contact existe déjà pour cette canne."; status := 400 |},
            d))
  /\ (unique_together d -> unique_together (snd out)).
Proof.
  intros out. subst out. unfold RegisterContactViaSMSAPIView_post. split.
  - intros c Hget [k [Hin [Hc Ht]]]. rewrite Hget.
    assert (Hdup : exists_ (Contact_filter_canne_telephone c numero_contact d) = true).
    { apply exists_filter_true. exists k. split; [exact Hin|].
      apply andb_true_iff. split; [apply Z.eqb_eq; exact Hc | apply str_eqb_eq; exact Ht]. }
    rewrite Hdup. reflexivity.
  - intros Huniq.
    destruct (Canne_objects_get canne_id d) as [c|]; [|exact Huniq].
    destruct (exists_ (Contact_filter_canne_telephone c numero_contact d)) eqn:Edup;
      [exact Huniq|].
    destruct (index_libre _) as [i|]; [|exact Huniq].
    destruct (create_cases upper request_nom role numero_contact c i d)
      as [[_ [n [_ ->]]] | [_ ->]]; [|exact Huniq].
    unfold unique_together, Contact_insert. cbn [snd contacts].
    rewrite map_app. cbn [map canne telephone].
    apply NoDup_app; [exact Huniq | repeat constructor; intros [] |].
    intros [a b] Hin [Heq | []].
    injection Heq as <- <-.
    apply in_map_iff in Hin. destruct Hin as [k [Hk Hin]].
    injection Hk as Hc Ht.
    pose proof (proj1 (exists_filter_false _ _) Edup k Hin) as Hf.
    cbn beta in Hf. rewrite Hc, Ht, Z.eqb_refl, str_eqb_refl in Hf. discriminate Hf.
Qed.

(** The number of C is refused a second time; a first registration keeps
    the pairs distinct. *)
Lemma C9_duplicate_refused_witness :
  register "+237600000003" db_5
  = ({| data := Detail "Ce contact existe déjà pour cette canne."; status := 400 |}, db_5)
  /\ unique_together (snd (register "+237600000006" db_1)).
Proof.
  split.
  - apply (proj1 (C9_duplicate_refused (fun s => s) None 1 (lit "FAMILLE")
                    (lit "+237600000003") db_5) canne_1 eq_refl).
    exists {| contact_pk := 3; canne := 1; nom := lit "Sans nom"; prenom := [];
              telephone := lit "+237600000003"; type_contact := lit "FAMILLE";
              priorite := 1; ajoute_par := None; id_microcontroleur := Some 3;
              synchro_avec_canne := true |}.
    split; [|split; reflexivity].
    vm_compute. right. right. left. reflexivity.
  - apply (proj2 (C9_duplicate_refused (fun s => s) None 1 (lit "FAMILLE")
                    (lit "+237600000006") db_1)).
    unfold unique_together. cbn. constructor.
Defined.

End ContactFacts.

(* ===================================================================== *)
(** * Part III. Further properties of the code                            *)
(* ===================================================================== *)

(** ** UTF-8: what is encoded decodes back *)

Section Utf8Facts.
Import Py Spec Invariants.

(** Setting bits that are all clear is adding. *)
Lemma lor_disjoint (a b k : Z) :
  0 <= k -> 0 <= b < 2 ^ k -> Z.lor (a * 2 ^ k) b = a * 2 ^ k + b.
Proof.
  intros Hk Hb.
  assert (Hland : Z.land (a * 2 ^ k) b = 0).
  { apply Z.bits_inj'. intros n Hn. rewrite Z.land_spec, Z.bits_0.
    destruct (Z.lt_ge_cases n k) as [Hlt | Hge].
    - rewrite Z.mul_pow2_bits_low by lia. reflexivity.
    - rewrite <- (Z.mod_small b (2 ^ k)) by exact Hb.
      rewrite Z.mod_pow2_bits_high by lia. apply andb_false_r. }
  pose proof (Z.add_lor_land (a * 2 ^ k) b) as H. rewrite Hland in H. lia.
Qed.

Lemma lor_C0 x : 0 <= x < 64 -> Z.lor 0xC0 x = 0xC0 + x.
Proof. intros H. apply (lor_disjoint 3 x 6); lia. Qed.

Lemma lor_80 x : 0 <= x < 64 -> Z.lor 0x80 x = 0x80 + x.
Proof. intros H. apply (lor_disjoint 2 x 6); lia. Qed.

Lemma lor_E0 x : 0 <= x < 16 -> Z.lor 0xE0 x = 0xE0 + x.
Proof. intros H. apply (lor_disjoint 14 x 4); lia. Qed.

Lemma lor_F0 x : 0 <= x < 8 -> Z.lor 0xF0 x = 0xF0 + x.
Proof. intros H. apply (lor_disjoint 30 x 3); lia. Qed.

Lemma land_3F x : Z.land x 0x3F = x mod 64.
Proof. change 0x3F with (Z.ones 6). rewrite Z.land_ones by lia. reflexivity. Qed.

(** Linear arithmetic with quotients and remainders by constants. *)
Ltac divmod := Z.div_mod_to_equations; lia.

(** Decides the comparisons of the goal that arithmetic settles. *)
Ltac settle_tests :=
  repeat match goal with
    | |- context [?a <? ?b] =>
        (destruct (Z.ltb_spec a b) as [? | ?]; [lia |])
        || (destruct (Z.ltb_spec a b) as [? | ?]; [| lia])
    end.

Lemma continuation_80 x : 0 <= x < 64 -> is_continuation (0x80 + x) = true.
Proof.
  intros H. unfold is_continuation. apply andb_true_iff. split; apply Z.leb_le; lia.
Qed.

(** A lead octet of 0xC2..0xDF followed by a continuation octet. *)
Lemma decode_two b1 b2 rest :
  0xC2 <= b1 < 0xE0 -> is_continuation b2 = true ->
  decode_ignore (b1 :: b2 :: rest)
  = (Z.shiftl b1 6 + b2 - (Z.shiftl 0xC0 6 + 0x80)) :: decode_ignore rest.
Proof.
  intros H1 H2. remember (b2 :: rest) as t1 eqn:E.
  cbn [decode_ignore]. settle_tests. subst t1. cbv beta iota.
  rewrite H2. reflexivity.
Qed.

(** A lead octet of 0xE0..0xEF followed by two acceptable octets. *)
Lemma decode_three b1 b2 b3 rest :
  0xE0 <= b1 < 0xF0 -> bad_second3 b1 b2 = false -> is_continuation b3 = true ->
  decode_ignore (b1 :: b2 :: b3 :: rest)
  = (Z.shiftl b1 12 + Z.shiftl b2 6 + b3
     - (Z.shiftl 0xE0 12 + Z.shiftl 0x80 6 + 0x80)) :: decode_ignore rest.
Proof.
  intros H1 H2 H3. remember (b2 :: b3 :: rest) as t1 eqn:E.
  cbn [decode_ignore]. settle_tests. subst t1. cbv beta iota.
  rewrite H2, H3. reflexivity.
Qed.

(** A lead octet of 0xF0..0xF4 followed by three acceptable octets. *)
Lemma decode_four b1 b2 b3 b4 rest :
  0xF0 <= b1 < 0xF5 -> bad_second4 b1 b2 = false ->
  is_continuation b3 = true -> is_continuation b4 = true ->
  decode_ignore (b1 :: b2 :: b3 :: b4 :: rest)
  = (Z.shiftl b1 18 + Z.shiftl b2 12 + Z.shiftl b3 6 + b4
     - (Z.shiftl 0xF0 18 + Z.shiftl 0x80 12 + Z.shiftl 0x80 6 + 0x80))
    :: decode_ignore rest.
Proof.
  intros H1 H2 H3 H4. remember (b2 :: b3 :: b4 :: rest) as t1 eqn:E.
  cbn [decode_ignore]. settle_tests. subst t1. cbv beta iota.
  rewrite H2, H3, H4. reflexivity.
Qed.

(** One character: its octets, put in front of anything, decode to it. *)
Lemma decode_encode_char (c : Z) (rest : bytes) :
  scalar c ->
  exists b, encode_char c = Some b /\ decode_ignore (b ++ rest) = c :: decode_ignore rest.
Proof.
  intros [Hc Hs]. unfold encode_char.
  destruct (Z.ltb_spec c 0x80) as [H1 | H1].
  { eexists. split; [reflexivity|]. cbn [app]. apply decode_ignore_ascii. exact H1. }
  destruct (Z.ltb_spec c 0x800) as [H2 | H2].
  { eexists. split; [reflexivity|]. cbn [app].
    rewrite land_3F, Z.shiftr_div_pow2 by lia. change (2 ^ 6) with 64.
    rewrite lor_C0, lor_80 by divmod.
    rewrite decode_two; [ | divmod | apply continuation_80; divmod].
    f_equal. rewrite !Z.shiftl_mul_pow2 by lia. divmod. }
  assert (Hsur : (0xD800 <=? c) && (c <=? 0xDFFF) = false).
  { apply andb_false_iff.
    destruct (Z.leb_spec 0xD800 c); [|left; reflexivity].
    destruct (Z.leb_spec c 0xDFFF); [lia | right; reflexivity]. }
  rewrite Hsur.
  destruct (Z.ltb_spec c 0x10000) as [H3 | H3].
  { eexists. split; [reflexivity|]. cbn [app].
    rewrite !land_3F, !Z.shiftr_div_pow2 by lia.
    change (2 ^ 6) with 64. change (2 ^ 12) with 4096.
    rewrite lor_E0, !lor_80 by divmod.
    rewrite decode_three; [ | divmod | | apply continuation_80; divmod].
    - f_equal. rewrite !Z.shiftl_mul_pow2 by lia. divmod.
    - unfold bad_second3. rewrite continuation_80 by divmod.
      cbn [negb orb].
      destruct (Z.ltb_spec (0x80 + c / 64 mod 64) 0xA0);
        apply Z.eqb_neq; divmod. }
  { eexists. split; [reflexivity|]. cbn [app].
    rewrite !land_3F, !Z.shiftr_div_pow2 by lia.
    change (2 ^ 6) with 64. change (2 ^ 12) with 4096. change (2 ^ 18) with 262144.
    rewrite lor_F0, !lor_80 by divmod.
    rewrite decode_four; [ | divmod | | apply continuation_80; divmod
                          | apply continuation_80; divmod].
    - f_equal. rewrite !Z.shiftl_mul_pow2 by lia. divmod.
    - unfold bad_second4. rewrite continuation_80 by divmod.
      cbn [negb orb].
      destruct (Z.ltb_spec (0x80 + c / 4096 mod 64) 0x90);
        apply Z.eqb_neq; divmod. }
Qed.

(** X1. Every string of code points without surrogates can be encoded, and
    decoding the octets, even with errors ignored, gives the string back:
    what the service writes as a message reads back as that message. *)
Theorem utf8_round_trip (s : str) :
  Forall scalar s ->
  exists b, encode s = Some b /\ decode_ignore b = s.
Proof.
  induction 1 as [|c s Hc _ [bs [Hbs Hdec]]].
  - exists []. split; reflexivity.
  - destruct (decode_encode_char c bs Hc) as [b [Hb Hd]].
    exists (b ++ bs). cbn [encode]. rewrite Hb, Hbs. split; [reflexivity|].
    rewrite Hd, Hdec. reflexivity.
Qed.

(** The sample command, and a string with an accent, a euro sign and an emoji. *)
Lemma utf8_round_trip_witness :
  (exists b, encode Samples.commande = Some b /\ decode_ignore b = Samples.commande)
  /\ (exists b, encode [233; 8364; 128512] = Some b
                /\ decode_ignore b = [233; 8364; 128512]).
Proof.
  split.
  - apply (utf8_round_trip Samples.commande).
    unfold Samples.commande. repeat constructor; cbv; intuition discriminate.
  - apply (utf8_round_trip [233; 8364; 128512]).
    repeat constructor; cbv; intuition discriminate.
Defined.

(** X2. Encoding fails exactly on the strings that hold a surrogate (for
    code points of the Unicode range), and a string of ASCII encodes to
    itself. *)
Theorem encode_fails_on_surrogates_only (s : str) :
  Forall (fun c => 0 <= c <= 0x10FFFF) s ->
  (encode s = None <-> exists c, In c s /\ 0xD800 <= c <= 0xDFFF)
  /\ (Forall (fun c => c < 0x80) s -> encode s = Some s).
Proof.
  intros Hrange. split; [split|].
  - induction Hrange as [|c s Hc Hs IH]; [discriminate|].
    cbn [encode]. destruct (encode_char c) as [b|] eqn:Ec.
    + destruct (encode s) as [bs|]; [discriminate|]. intros _.
      destruct (IH eq_refl) as [c' [Hin Hsur]]. exists c'. split; [right|]; assumption.
    + intros _. exists c. split; [left; reflexivity|].
      unfold encode_char in Ec.
      destruct (c <? 0x80); [discriminate|].
      destruct (c <? 0x800); [discriminate|].
      destruct ((0xD800 <=? c) && (c <=? 0xDFFF)) eqn:E.
      * apply andb_true_iff in E. destruct E as [E1 E2].
        apply Z.leb_le in E1. apply Z.leb_le in E2. lia.
      * destruct (c <? 0x10000); discriminate.
  - intros [c [Hin Hsur]].
    destruct (encode s) as [b|] eqn:E; [|reflexivity]. exfalso.
    revert b E. induction s as [|x s IH]; intros b E; [destruct Hin|].
    cbn [encode] in E.
    destruct (encode_char x) as [bx|] eqn:Ex; [|discriminate].
    destruct (encode s) as [bs|] eqn:Es; [|discriminate].
    destruct Hin as [-> | Hin].
    + unfold encode_char in Ex.
      destruct (Z.ltb_spec c 0x80); [lia|].
      destruct (Z.ltb_spec c 0x800); [lia|].
      destruct (Z.leb_spec 0xD800 c); [|lia].
      destruct (Z.leb_spec c 0xDFFF); [|lia].
      discriminate.
    + inversion Hrange; subst. exact (IH ltac:(assumption) Hin bs eq_refl).
  - induction 1 as [|c s Hc _ IH]; [reflexivity|].
    inversion Hrange; subst.
    cbn [encode]. unfold encode_char.
    destruct (Z.ltb_spec c 0x80); [|lia]. rewrite (IH ltac:(assumption)). reflexivity.
Qed.

(** A lone surrogate, and the sample number. *)
Lemma encode_fails_on_surrogates_only_witness :
  encode [72; 0xD800] = None /\ encode Samples.numero_canne = Some Samples.numero_canne.
Proof.
  split.
  - apply (proj1 (encode_fails_on_surrogates_only [72; 0xD800]
                    ltac:(repeat constructor; lia))).
    exists 0xD800. split; [right; left; reflexivity | lia].
  - apply (proj2 (encode_fails_on_surrogates_only Samples.numero_canne
                    ltac:(unfold Samples.numero_canne; repeat constructor; cbv;
                          discriminate))).
    unfold Samples.numero_canne. repeat constructor.
Defined.

End Utf8Facts.

(** ** The exchange, step by step *)

Section ExchangeFacts.
Import Py Serial GSMHardwareService Spec Invariants Samples.

Ltac unfold_exchange :=
  cbv beta iota zeta delta
    [envoyer_sms_physique exchange handlers print_ cleanup fresh try_finally try_except
     bind ret raise emit sleep log Serial_ write read_all close of_option
     UnicodeEncodeError
     ser nwrites trace fst snd].

Ltac split_answer :=
  match goal with
  | |- context [match ?x with _ => _ end] =>
      lazymatch x with
      | context [match _ with _ => _ end] => fail
      | _ => destruct x eqn:?; unfold_exchange
      end
  end.

Ltac every_path := unfold_exchange; repeat split_answer.

Lemma written_app (a b : list event) : written (a ++ b) = written a ++ written b.
Proof.
  induction a as [|ev a IH]; [reflexivity|].
  destruct ev; cbn [app written]; rewrite IH; reflexivity.
Qed.

Lemma slept_app (a b : list event) : slept (a ++ b) = slept a + slept b.
Proof.
  induction a as [|ev a IH]; [reflexivity|].
  destruct ev; cbn [app slept]; rewrite IH; lia.
Qed.

(** What a run on a live link writes, whatever is read afterwards. *)
Lemma written_live hw numero message n m tr :
  on_open hw = None ->
  (forall k, (k < 5)%nat -> on_write hw k = None) ->
  encode numero = Some n ->
  encode message = Some m ->
  written (trace (snd (envoyer_sms_physique hw numero message (fresh tr))))
  = written tr ++ commands n m.
Proof.
  intros Hopen Hw Hn Hm. unfold_exchange.
  rewrite Hopen, (Hw 0%nat), (Hw 1%nat) by lia.
  rewrite (encode_cmd_numero numero n Hn). unfold_exchange.
  rewrite (Hw 2%nat), Hm by lia. unfold_exchange.
  rewrite (Hw 3%nat), (Hw 4%nat) by lia.
  repeat split_answer; rewrite !written_app; cbn [written];
    rewrite ?app_nil_r, <- ?app_assoc; reflexivity.
Qed.



(** X4. A message that cannot be encoded is discovered late: on a live link
    the two set-up commands and the address command have been written, the
    body and the terminating octet 26 never are, and the answer is False.
    A number that cannot be encoded stops the exchange after the two set-up
    commands. In both cases the port is closed. *)
Theorem unencodable_text_aborts hw numero message tr :
  on_open hw = None ->
  (forall k, (k < 3)%nat -> on_write hw k = None) ->
  let run := envoyer_sms_physique hw numero message (fresh tr) in
  (forall n, encode numero = Some n -> encode message = None ->
     written (trace (snd run))
     = written tr ++ [lit "AT" ++ [CR]; lit "AT+CMGF=1" ++ [CR];
                      lit "AT+CMGS=" ++ [QUOTE] ++ n ++ [QUOTE; CR]]
     /\ fst run = Ok false /\ ser (snd run) = Some false)
  /\ (encode numero = None ->
      written (trace (snd run)) = written tr ++ [lit "AT" ++ [CR]; lit "AT+CMGF=1" ++ [CR]]
      /\ fst run = Ok false /\ ser (snd run) = Some false).
Proof.
  intros Hopen Hw run. subst run. split.
  - intros n Hn Hm. unfold_exchange.
    rewrite Hopen, (Hw 0%nat), (Hw 1%nat) by lia.
    rewrite (encode_cmd_numero numero n Hn). unfold_exchange.
    rewrite (Hw 2%nat), Hm by lia. unfold_exchange.
    split; [|split; reflexivity].
    rewrite !written_app; cbn [written]; rewrite ?app_nil_r, <- ?app_assoc; reflexivity.
  - intros Hn. unfold_exchange.
    rewrite Hopen, (Hw 0%nat), (Hw 1%nat) by lia.
    assert (Hcmd : encode (lit "AT+CMGS=" ++ [QUOTE] ++ numero ++ [QUOTE; CR]) = None)
      by (rewrite !encode_app, Hn; reflexivity).
    rewrite Hcmd. unfold_exchange.
    split; [|split; reflexivity].
    rewrite !written_app; cbn [written]; rewrite ?app_nil_r, <- ?app_assoc; reflexivity.
Qed.

(** A message and a number that hold a lone surrogate. *)
Lemma unencodable_text_aborts_witness :
  written (trace (snd (envoyer_sms_physique (hw_live (lit "OK")) numero_canne
                         [0xD800] (fresh []))))
  = [lit "AT" ++ [13]; lit "AT+CMGF=1" ++ [13];
     lit "AT+CMGS=" ++ [34] ++ numero_canne ++ [34; 13]]
  /\ fst (envoyer_sms_physique (hw_live (lit "OK")) [0xDFFF] commande (fresh []))
     = Ok false.
Proof.
  split.
  - apply (proj1 (unencodable_text_aborts (hw_live (lit "OK")) numero_canne [0xD800] []
                    eq_refl (fun k _ => eq_refl)) numero_canne eq_refl eq_refl).
  - apply (proj2 (unencodable_text_aborts (hw_live (lit "OK")) [0xDFFF] commande []
                    eq_refl (fun k _ => eq_refl)) eq_refl).
Defined.

(** X5. A call never sleeps more than 5.5 seconds in all; it sleeps exactly
    that long when the exchange runs to its end, and not at all when the port
    does not open. *)
Theorem sleeps_bounded hw numero message tr :
  let run := envoyer_sms_physique hw numero message (fresh tr) in
  slept tr <= slept (trace (snd run)) <= slept tr + 5500
  /\ (forall b, fst (exchange hw numero message (fresh tr)) = Ok b ->
      slept (trace (snd run)) = slept tr + 5500)
  /\ (on_open hw <> None -> slept (trace (snd run)) = slept tr).
Proof.
  intros run. subst run. split; [|split].
  - every_path; rewrite !slept_app; cbn [slept]; lia.
  - intros b. every_path; try discriminate; intros _;
      rewrite !slept_app; cbn [slept]; lia.
  - every_path; try congruence; intros _; rewrite !slept_app; cbn [slept]; lia.
Qed.

(** A modem that answers, and an empty port. *)
Lemma sleeps_bounded_witness :
  slept (trace (snd (envoyer_sms_physique (hw_live (lit "OK")) numero_canne commande
                       (fresh [])))) = 5500
  /\ slept (trace (snd (envoyer_sms_physique hw_absent numero_canne commande
                          (fresh [])))) = 0.
Proof.
  split.
  - apply (proj1 (proj2 (sleeps_bounded (hw_live (lit "OK")) numero_canne commande []))
             true).
    reflexivity.
  - apply (proj2 (proj2 (sleeps_bounded hw_absent numero_canne commande []))).
    discriminate.
Defined.

End ExchangeFacts.

(** ** Jobs, whatever the hardware does *)

Section JobFacts.
Import Py Serial GSMHardwareService Models Celery Tasks Spec Invariants Samples.

(** A run either returns or asks for a retry in 60 seconds. *)
Lemma task_shape hw self canne_id contenu user_id s :
  (exists a, fst (task_envoyer_sms hw self canne_id contenu user_id s) = Return a)
  \/ (exists e, fst (task_envoyer_sms hw self canne_id contenu user_id s)
                = retry max_retries self e 60).
Proof.
  unfold task_envoyer_sms.
  destruct (Canne_objects_get canne_id (db s)) as [c|]; [|left; eexists; reflexivity].
  destruct (envoyer_sms_physique _ _ _ _) as [[[|] | e] fr].
  - left. eexists. reflexivity.
  - right. eexists. reflexivity.
  - right. eexists. reflexivity.
Qed.

(** With [n] retries left, at most [n + 1] more runs take place. *)
Lemma worker_bounded hws canne_id contenu user_id :
  forall (n fuel r done : nat) (delays : list Z) (s : system),
    (r + n = 3)%nat -> (n < fuel)%nat ->
    exists j,
      worker fuel
        (fun req => task_envoyer_sms (hws (retries req)) req canne_id contenu user_id)
        {| retries := r; called_directly := false |} s done delays = Some j
      /\ (done + 1 <= attempts j <= done + n + 1)%nat
      /\ countdowns j = delays ++ repeat 60 (attempts j - done - 1)
      /\ (forall exc when next, job_exit j <> Retry exc when next)
      /\ db (job_state j) = db s.
Proof.
  induction n as [|n IH]; intros fuel r done delays s Hr Hfuel;
    (destruct fuel as [|fuel]; [lia|]); cbn [worker];
    pose proof (task_envoyer_sms_db (hws r) {| retries := r; called_directly := false |}
                  canne_id contenu user_id s) as Hdb;
    destruct (task_shape (hws r) {| retries := r; called_directly := false |}
                canne_id contenu user_id s) as [[a Ha] | [e He]];
    cbn [retries];
    destruct (task_envoyer_sms (hws r) {| retries := r; called_directly := false |}
                canne_id contenu user_id s) as [x s'];
    cbn [fst snd] in *; subst x.
  - eexists. split; [reflexivity|]. cbn [attempts countdowns job_exit job_state].
    replace (S done - done - 1)%nat with 0%nat by lia. cbn [repeat].
    rewrite app_nil_r. repeat split; try lia; try assumption. discriminate.
  - assert (r = 3%nat) as -> by lia.
    unfold retry, max_retries. cbn.
    eexists. split; [reflexivity|]. cbn [attempts countdowns job_exit job_state].
    replace (S done - done - 1)%nat with 0%nat by lia. cbn [repeat].
    rewrite app_nil_r. repeat split; try lia; try assumption. discriminate.
  - eexists. split; [reflexivity|]. cbn [attempts countdowns job_exit job_state].
    replace (S done - done - 1)%nat with 0%nat by lia. cbn [repeat].
    rewrite app_nil_r. repeat split; try lia; try assumption. discriminate.
  - unfold retry, max_retries. cbn [retries called_directly].
    destruct (Nat.ltb_spec 3 (S r)) as [Hlt | _]; [lia|].
    destruct (IH fuel (S r) (S done) (delays ++ [60]) s')
      as [j [Hj [Hatt [Hcd [Hexit Hdbj]]]]]; [lia | lia |].
    exists j. split; [exact Hj|]. split; [lia|]. split; [|split].
    + rewrite Hcd, <- app_assoc. f_equal.
      replace (attempts j - done - 1)%nat with (S (attempts j - S done - 1)) by lia.
      reflexivity.
    + exact Hexit.
    + rewrite Hdbj. exact Hdb.
Qed.

(** X6. Whatever the hardware does at each run and whether the cane exists
    or not, a submitted job comes to an end within four runs of the task:
    it ends on a return or on a failure, never with a retry pending. The
    retries before that were each scheduled 60 seconds ahead, and the job
    has written no table. *)
Theorem job_ends_within_four_runs hws canne_id contenu user_id s fuel :
  (4 <= fuel)%nat ->
  exists j,
    submit fuel hws canne_id contenu user_id s = Some j
    /\ (1 <= attempts j <= 4)%nat
    /\ countdowns j = repeat 60 (attempts j - 1)
    /\ (forall exc when next, job_exit j <> Retry exc when next)
    /\ db (job_state j) = db s.
Proof.
  intros Hfuel. unfold submit, delay.
  destruct (worker_bounded hws canne_id contenu user_id 3 fuel 0 0 [] s)
    as [j [Hj [Hatt [Hcd [Hexit Hdb]]]]]; [lia | lia |].
  exists j. split; [exact Hj|]. split; [lia|]. split; [|split; assumption].
  rewrite Hcd. cbn [app]. f_equal. lia.
Qed.

(** A modem that is unplugged at every run. *)
Lemma job_ends_within_four_runs_witness :
  exists j,
    submit 4 (fun _ => hw_unplugged) 1 commande None sys_1 = Some j
    /\ (1 <= attempts j <= 4)%nat
    /\ countdowns j = repeat 60 (attempts j - 1)
    /\ (forall exc when next, job_exit j <> Retry exc when next)
    /\ db (job_state j) = db_1.
Proof.
  apply (job_ends_within_four_runs (fun _ => hw_unplugged) 1 commande None sys_1 4).
  apply Nat.le_refl.
Defined.

(** After [k] refusals a confirmation ends the job. *)
Lemma worker_confirmed_after hws canne_id contenu user_id c :
  forall (k fuel r done : nat) (delays : list Z) (s : system),
    (r + k <= 3)%nat -> (k < fuel)%nat ->
    Canne_objects_get canne_id (db s) = Some c ->
    (forall i, (i < k)%nat ->
       fst (envoyer_sms_physique (hws (r + i)%nat) (numero_gsm c) contenu (fresh []))
       = Ok false) ->
    fst (envoyer_sms_physique (hws (r + k)%nat) (numero_gsm c) contenu (fresh []))
    = Ok true ->
    exists j,
      worker fuel
        (fun req => task_envoyer_sms (hws (retries req)) req canne_id contenu user_id)
        {| retries := r; called_directly := false |} s done delays = Some j
      /\ job_exit j = Return [("status", "success")]%string
      /\ attempts j = (done + k + 1)%nat
      /\ countdowns j = delays ++ repeat 60 k
      /\ db (job_state j) = db s.
Proof.
  induction k as [|k IH]; intros fuel r done delays s Hr Hfuel Hget Hrefused Hok;
    (destruct fuel as [|fuel]; [lia|]); cbn [worker retries].
  - rewrite Nat.add_0_r in Hok.
    destruct (task_confirmed (hws r) {| retries := r; called_directly := false |}
                canne_id contenu user_id s c Hget Hok) as [tr E].
    rewrite E. eexists. split; [reflexivity|].
    cbn [attempts countdowns job_exit job_state logged db].
    repeat split; [lia | symmetry; apply app_nil_r].
  - pose proof (Hrefused 0%nat ltac:(lia)) as H0. rewrite Nat.add_0_r in H0.
    destruct (task_rejected (hws r) {| retries := r; called_directly := false |}
                canne_id contenu user_id s c Hget H0) as [tr E].
    rewrite E. unfold retry, max_retries. cbn [retries called_directly].
    destruct (Nat.ltb_spec 3 (S r)) as [Hlt | _]; [lia|].
    destruct (IH fuel (S r) (S done) (delays ++ [60]) (logged s tr))
      as [j [Hj [Hexit [Hatt [Hcd Hdb]]]]].
    + lia.
    + lia.
    + exact Hget.
    + intros i Hi. replace (S r + i)%nat with (r + S i)%nat by lia.
      apply Hrefused. lia.
    + replace (S r + k)%nat with (r + S k)%nat by lia. exact Hok.
    + exists j. split; [exact Hj|]. split; [exact Hexit|]. split; [lia|].
      split; [rewrite Hcd, <- app_assoc; reflexivity | exact Hdb].
Qed.

(** X7. If the first [k] runs of a job on a known cane are refused (k at
    most 3) and the next one is confirmed, the job returns success after
    exactly [k + 1] runs, having waited [k] times 60 seconds: a refusal
    costs a retry, a confirmation ends the job at once. *)
Theorem job_succeeds_at_first_confirmation hws canne_id contenu user_id s c k fuel :
  Canne_objects_get canne_id (db s) = Some c ->
  (k <= 3)%nat -> (k < fuel)%nat ->
  (forall i, (i < k)%nat ->
     fst (envoyer_sms_physique (hws i) (numero_gsm c) contenu (fresh [])) = Ok false) ->
  fst (envoyer_sms_physique (hws k) (numero_gsm c) contenu (fresh [])) = Ok true ->
  exists j,
    submit fuel hws canne_id contenu user_id s = Some j
    /\ job_exit j = Return [("status", "success")]%string
    /\ attempts j = (k + 1)%nat
    /\ countdowns j = repeat 60 k.
Proof.
  intros Hget Hk Hfuel Hrefused Hok. unfold submit, delay.
  destruct (worker_confirmed_after hws canne_id contenu user_id c k fuel 0 0 [] s)
    as [j [Hj [Hexit [Hatt [Hcd _]]]]]; try assumption; try lia.
  exists j. repeat split; assumption.
Qed.

(** The modem is silent twice, then confirms. *)
Lemma job_succeeds_at_first_confirmation_witness :
  exists j,
    submit 3 (fun i => if (i <? 2)%nat then hw_live [] else hw_live (lit "OK"))
      1 commande None sys_1 = Some j
    /\ job_exit j = Return [("status", "success")]%string
    /\ attempts j = 3%nat
    /\ countdowns j = [60; 60].
Proof.
  apply (job_succeeds_at_first_confirmation
           (fun i => if (i <? 2)%nat then hw_live [] else hw_live (lit "OK"))
           1 commande None sys_1 canne_1 2 3).
  - reflexivity.
  - lia.
  - lia.
  - intros [|[|i]] Hi; [reflexivity | reflexivity | lia].
  - reflexivity.
Defined.

(** X8. With no hardware on the port at the first run, a job on a known
    cane whose number and content can be encoded (so that the MODE TEST
    line can be printed) returns success after that single run although
    nothing was opened or written on the link; the only trace of the
    simulation is the MODE TEST line. *)
Theorem absent_hardware_job_succeeds hws canne_id contenu user_id s c d fuel :
  Canne_objects_get canne_id (db s) = Some c ->
  on_open (hws 0%nat) = Some (SerialException d) ->
  encode (numero_gsm c) <> None ->
  encode contenu <> None ->
  (1 <= fuel)%nat ->
  submit fuel hws canne_id contenu user_id s =
  Some {| job_exit := Return [("status", "success")]%string;
          attempts := 1;
          countdowns := [];
          job_state :=
            logged s (console s ++
                      [EvLog (Info_tentative (numero_gsm c));
                       EvLog (Error_acces_module PORT d);
                       EvLog (Stdout_mode_test PORT (numero_gsm c) contenu);
                       EvLog (Info_succes canne_id)]) |}.
Proof.
  intros Hget Hopen Hn Hm Hfuel. destruct fuel as [|fuel]; [lia|].
  destruct (mode_test_line_printable (numero_gsm c) contenu Hn Hm) as [l Hl].
  unfold submit, delay. cbn [worker retries]. unfold task_envoyer_sms. rewrite Hget.
  cbv beta iota zeta delta
    [envoyer_sms_physique exchange handlers print_ cleanup fresh try_finally try_except
     bind ret raise emit sleep log Serial_ ser nwrites trace].
  rewrite Hopen.
  cbv beta iota zeta delta [bind ret emit log ser nwrites trace].
  rewrite Hl.
  cbv beta iota zeta delta [bind ret emit log ser nwrites trace].
  rewrite <- !app_assoc. reflexivity.
Qed.

(** The sample job on an empty port. *)
Lemma absent_hardware_job_succeeds_witness :
  option_map (fun j => (job_exit j, attempts j, written (console (job_state j))))
    (submit 1 (fun _ => hw_absent) 1 commande None sys_1)
  = Some (Return [("status", "success")]%string, 1%nat, []).
Proof.
  rewrite (absent_hardware_job_succeeds (fun _ => hw_absent) 1 commande None sys_1
             canne_1 "could not open port /dev/ttyUSB0" 1 eq_refl eq_refl
             ltac:(discriminate) ltac:(discriminate) (Nat.le_refl 1)).
  reflexivity.
Defined.

(** X9. A run of the task on a known cane over a live link writes the five
    commands of the exchange with the number of that cane, as stored, in
    the address command and the content of the job, unchanged, as body. *)
Theorem task_addresses_the_cane hw self canne_id contenu user_id s c n m :
  Canne_objects_get canne_id (db s) = Some c ->
  on_open hw = None ->
  (forall k, (k < 5)%nat -> on_write hw k = None) ->
  encode (numero_gsm c) = Some n ->
  encode contenu = Some m ->
  written (console (snd (task_envoyer_sms hw self canne_id contenu user_id s)))
  = written (console s) ++ commands n m.
Proof.
  intros Hget Hopen Hw Hn Hm. unfold task_envoyer_sms. rewrite Hget.
  pose proof (written_live hw (numero_gsm c) contenu n m
                (console s ++ [EvLog (Info_tentative (numero_gsm c))])
                Hopen Hw Hn Hm) as Hwr.
  destruct (envoyer_sms_physique _ _ _ _) as [[[|] | e] fr]; cbn [snd] in Hwr;
    cbn [snd logged console]; rewrite written_app, Hwr, written_app;
    cbn [written]; rewrite !app_nil_r; reflexivity.
Qed.

(** The sample job on a modem that confirms. *)
Lemma task_addresses_the_cane_witness :
  written (console (snd (task_envoyer_sms (hw_live (lit "OK"))
                           {| retries := 0; called_directly := false |}
                           1 commande None sys_1)))
  = [lit "AT" ++ [13]; lit "AT+CMGF=1" ++ [13];
     lit "AT+CMGS=" ++ [34] ++ lit "+237699999999" ++ [34; 13];
     lit "CONF:1:FAMILLE:+237600000000"; [26]].
Proof.
  apply (task_addresses_the_cane (hw_live (lit "OK"))
           {| retries := 0; called_directly := false |} 1 commande None sys_1 canne_1
           numero_canne commande eq_refl eq_refl (fun k _ => eq_refl) eq_refl eq_refl).
Defined.

End JobFacts.

(** ** Sessions on the contact views *)

Section SessionFacts.
Import Py Models ContactViews Sessions Spec Invariants Samples.

Lemma NoDup_map_filter {A B} (f : A -> B) (q : A -> bool) (l : list A) :
  NoDup (map f l) -> NoDup (map f (filter q l)).
Proof.
  induction l as [|a l IH]; [intros; constructor|].
  cbn [map filter]. intros H. inversion H as [|? ? Hnotin Hnodup]; subst.
  destruct (q a); [|apply IH, Hnodup].
  cbn [map]. constructor; [|apply IH, Hnodup].
  intros Hin. apply Hnotin. apply in_map_iff in Hin. destruct Hin as [x [Hx Hin]].
  apply filter_In in Hin. rewrite <- Hx. apply in_map. apply Hin.
Qed.

Lemma filter_filter_comm {A} (p q : A -> bool) (l : list A) :
  filter p (filter q l) = filter q (filter p l).
Proof.
  induction l as [|a l IH]; [reflexivity|].
  cbn [filter]. destruct (p a) eqn:Ep, (q a) eqn:Eq; cbn [filter];
    rewrite ?Ep, ?Eq, IH; reflexivity.
Qed.

Lemma Forall_map_filter {A B} (P : B -> Prop) (f : A -> B) (q : A -> bool) (l : list A) :
  Forall P (map f l) -> Forall P (map f (filter q l)).
Proof.
  rewrite !Forall_forall. intros H y Hy. apply H.
  apply in_map_iff in Hy. destruct Hy as [x [<- Hx]].
  apply filter_In in Hx. apply in_map. apply Hx.
Qed.

(** Two rows of a list that a function maps without repetition are one row. *)
Lemma NoDup_map_eq {A B} (f : A -> B) (l : list A) (x y : A) :
  NoDup (map f l) -> In x l -> In y l -> f x = f y -> x = y.
Proof.
  induction l as [|a l IH]; [intros _ []|].
  cbn [map]. intros H Hx Hy Heq. inversion H as [|? ? Hnotin Hnodup]; subst.
  destruct Hx as [-> | Hx], Hy as [-> | Hy].
  - reflexivity.
  - exfalso. apply Hnotin. rewrite Heq. apply in_map, Hy.
  - exfalso. apply Hnotin. rewrite <- Heq. apply in_map, Hx.
  - apply IH; assumption.
Qed.

Lemma index_in_In (i : Z) (occ : list (option Z)) :
  index_in i occ = true <-> In (Some i) occ.
Proof.
  unfold index_in. rewrite existsb_exists. split.
  - intros [[j|] [Hin Hj]]; [|discriminate]. apply Z.eqb_eq in Hj. subst j. exact Hin.
  - intros Hin. exists (Some i). split; [exact Hin | apply Z.eqb_refl].
Qed.

(** The indices of a cane are those of [Contact_filter_canne]. *)
Lemma slots_of_filter c d :
  slots_of (canne_pk c) d = map id_microcontroleur (Contact_filter_canne c d).
Proof. reflexivity. Qed.

(** The ways a registration ends: without a change, or with a new row. *)
Lemma post_cases upper request_nom canne_id role numero_contact d :
  let out :=
    RegisterContactViaSMSAPIView_post upper request_nom canne_id role numero_contact d in
  (snd out = d /\ status (fst out) <> 201)
  \/ exists c i n,
       Canne_objects_get canne_id d = Some c
       /\ exists_ (Contact_filter_canne_telephone c numero_contact d) = false
       /\ index_libre (slots_of (canne_pk c) d) = Some i
       /\ get_nom request_nom = Some n
       /\ out = ({| data := Registered (contact_seq d) i
                              "Contact enregistré avec succès en base de données.";
                    status := 201 |},
                 snd (Contact_insert c n numero_contact (upper role) i true d)).
Proof.
  intros out. subst out. unfold RegisterContactViaSMSAPIView_post. cbv zeta.
  destruct (Canne_objects_get canne_id d) as [c|] eqn:Hget;
    [|left; split; [reflexivity | discriminate]].
  destruct (exists_ (Contact_filter_canne_telephone c numero_contact d)) eqn:Hdup;
    [left; split; [reflexivity | discriminate]|].
  rewrite <- slots_of_filter.
  destruct (index_libre (slots_of (canne_pk c) d)) as [i|] eqn:Hfree;
    [|left; split; [reflexivity | discriminate]].
  destruct (create_cases upper request_nom role numero_contact c i d)
    as [[_ [n [Hn ->]]] | [_ ->]];
    [|left; split; [reflexivity | discriminate]].
  right. exists c, i, n. repeat split; try assumption; reflexivity.
Qed.

(** The two ways a deletion ends. *)
Lemma delete_cases canne_id contact_id role d :
  let out := DeleteContactAPIView_post canne_id contact_id role d in
  (snd out = d /\ status (fst out) <> 200)
  \/ exists k,
       In k (contacts d) /\ contact_pk k = contact_id /\ canne k = canne_id
       /\ role = lit "SUPER_ADMIN"
       /\ out = ({| data := Removed "Contact supprimé avec succès." k
                              (id_microcontroleur k);
                    status := 200 |},
                 Contact_delete k d).
Proof.
  intros out. subst out. unfold DeleteContactAPIView_post.
  destruct (str_eqb role (lit "SUPER_ADMIN")) eqn:Hrole; cbn [negb];
    [|left; split; [reflexivity | discriminate]].
  apply str_eqb_eq in Hrole.
  destruct (Contact_filter_id_canne contact_id canne_id d) as [|k q] eqn:E;
    [left; split; [reflexivity | discriminate]|].
  right. exists k.
  assert (Hin : In k (Contact_filter_id_canne contact_id canne_id d))
    by (rewrite E; left; reflexivity).
  apply filter_In in Hin. destruct Hin as [Hin Hb].
  apply andb_true_iff in Hb. destruct Hb as [Hpk Hc].
  apply Z.eqb_eq in Hpk. apply Z.eqb_eq in Hc.
  repeat split; assumption.
Qed.

(** A registration keeps the slot table in order. *)
Lemma post_keeps_slots upper request_nom canne_id role numero_contact d :
  slot_table_ok d ->
  slot_table_ok
    (snd (RegisterContactViaSMSAPIView_post upper request_nom canne_id role
            numero_contact d)).
Proof.
  intros Hok.
  destruct (post_cases upper request_nom canne_id role numero_contact d)
    as [[-> _] | [c [i [n [Hget [Hdup [Hfree [Hnom ->]]]]]]]]; [exact Hok|].
  pose proof (index_libre_spec (slots_of (canne_pk c) d)) as Hspec.
  rewrite Hfree in Hspec. destruct Hspec as [Hi [Hnot _]].
  intros cid. destruct (Hok cid) as [Hnd Hrange].
  unfold slots_of, Contact_insert. cbn [snd contacts].
  rewrite filter_app, map_app. cbn [filter canne].
  destruct (Z.eqb_spec (canne_pk c) cid) as [<- | Hne]; cbn [map id_microcontroleur].
  - split.
    + apply NoDup_app; [exact Hnd | repeat constructor; intros [] |].
      intros o Ho [<- | []].
      apply index_in_In in Ho. unfold slots_of in Hnot. congruence.
    + apply Forall_app. split; [exact Hrange|].
      constructor; [exists i; split; [reflexivity | exact Hi] | constructor].
  - rewrite !app_nil_r. split; assumption.
Qed.

(** So does a deletion. *)
Lemma delete_keeps_slots canne_id contact_id role d :
  slot_table_ok d ->
  slot_table_ok (snd (DeleteContactAPIView_post canne_id contact_id role d)).
Proof.
  intros Hok.
  destruct (delete_cases canne_id contact_id role d)
    as [[-> _] | [k [_ [_ [_ [_ ->]]]]]]; [exact Hok|].
  intros cid. destruct (Hok cid) as [Hnd Hrange].
  unfold slots_of, Contact_delete. cbn [snd contacts].
  rewrite filter_filter_comm. split.
  - apply NoDup_map_filter. exact Hnd.
  - apply Forall_map_filter. exact Hrange.
Qed.

(** A table in order holds at most five contacts per cane. *)
Lemma slot_table_capacity d cid :
  slot_table_ok d -> (List.length (slots_of cid d) <= 5)%nat.
Proof.
  intros Hok. destruct (Hok cid) as [Hnd Hrange].
  change 5%nat with (List.length (map Some [1; 2; 3; 4; 5])).
  apply NoDup_incl_length; [exact Hnd|].
  intros o Ho. rewrite Forall_forall in Hrange.
  destruct (Hrange o Ho) as [i [-> Hi]].
  apply in_map.
  assert (Hcases : i = 1 \/ i = 2 \/ i = 3 \/ i = 4 \/ i = 5) by lia.
  cbn. intuition.
Qed.

(** X10. Whatever requests are served, in whatever order, registrations
    and deletions keep the slot table in order: every contact of a cane has
    an index of 1..5, no two contacts of a cane share an index, and so no
    cane ever has more than five contacts. *)
Theorem sessions_keep_slot_table upper (rs : list request) (d : database) :
  slot_table_ok d ->
  let d' := snd (serve_all upper rs d) in
  slot_table_ok d'
  /\ forall c, (List.length (Contact_filter_canne c d') <= 5)%nat.
Proof.
  intros Hok d'.
  assert (Hok' : slot_table_ok d').
  { subst d'. revert d Hok. induction rs as [|r rs IH]; intros d Hok; [exact Hok|].
    cbn [serve_all].
    destruct (serve upper r d) as [a d1] eqn:E1.
    specialize (IH d1). destruct (serve_all upper rs d1) as [answers d2].
    cbn [snd] in *. apply IH.
    replace d1 with (snd (serve upper r d)) by (rewrite E1; reflexivity).
    destruct r as [request_nom canne_id role numero_contact | canne_id contact_id role];
      cbn [serve]; [apply post_keeps_slots | apply delete_keeps_slots]; exact Hok. }
  split; [exact Hok'|].
  intros c. rewrite <- (length_map id_microcontroleur), <- slots_of_filter.
  apply slot_table_capacity. exact Hok'.
Qed.

(** Seven registrations and a deletion on the sample cane. *)
Lemma sessions_keep_slot_table_witness :
  let d' :=
    snd (serve_all (fun s => s)
           [Register None 1 (lit "FAMILLE") (lit "+237600000001");
            Register None 1 (lit "AMI") (lit "+237600000002");
            Delete 1 1 (lit "SUPER_ADMIN");
            Register None 1 (lit "AMI") (lit "+237600000003");
            Register None 1 (lit "AMI") (lit "+237600000004");
            Register None 1 (lit "AMI") (lit "+237600000005");
            Register None 1 (lit "AMI") (lit "+237600000006");
            Register None 1 (lit "AMI") (lit "+237600000007")] db_1) in
  slot_table_ok d' /\ (List.length (Contact_filter_canne canne_1 d') <= 5)%nat.
Proof.
  intros d'.
  destruct (sessions_keep_slot_table (fun s => s)
              [Register None 1 (lit "FAMILLE") (lit "+237600000001");
               Register None 1 (lit "AMI") (lit "+237600000002");
               Delete 1 1 (lit "SUPER_ADMIN");
               Register None 1 (lit "AMI") (lit "+237600000003");
               Register None 1 (lit "AMI") (lit "+237600000004");
               Register None 1 (lit "AMI") (lit "+237600000005");
               Register None 1 (lit "AMI") (lit "+237600000006");
               Register None 1 (lit "AMI") (lit "+237600000007")] db_1)
    as [H1 H2].
  - intros cid. unfold slots_of. cbn. split; constructor.
  - split; [exact H1 | exact (H2 canne_1)].
Defined.


(** A registration keeps the keys and the pairs distinct. *)
Lemma post_keeps_keys upper request_nom canne_id role numero_contact d :
  unique_together d -> contact_pks_ok d ->
  let d' := snd (RegisterContactViaSMSAPIView_post upper request_nom canne_id role
                   numero_contact d) in
  unique_together d' /\ contact_pks_ok d' /\ contact_seq d <= contact_seq d'.
Proof.
  intros Huniq [Hnd Hlt] d'. subst d'.
  destruct (post_cases upper request_nom canne_id role numero_contact d)
    as [[-> _] | [c [i [n [Hget [Hdup [Hfree [Hnom ->]]]]]]]].
  { repeat split; try assumption. lia. }
  unfold unique_together, contact_pks_ok, Contact_insert.
  cbn [snd contacts contact_seq]. rewrite !map_app. cbn [map canne telephone contact_pk].
  split; [|split; [split|]].
  - apply NoDup_app; [exact Huniq | repeat constructor; intros [] |].
    intros [a b] Hin [Heq | []]. injection Heq as <- <-.
    apply in_map_iff in Hin. destruct Hin as [k [Hk Hin]]. injection Hk as Hc Ht.
    pose proof (proj1 (exists_filter_false _ _) Hdup k Hin) as Hf.
    cbn beta in Hf. rewrite Hc, Ht, Z.eqb_refl, str_eqb_refl in Hf. discriminate Hf.
  - apply NoDup_app; [exact Hnd | repeat constructor; intros [] |].
    intros pk Hin [<- | []].
    apply in_map_iff in Hin. destruct Hin as [k [Hk Hin]].
    rewrite Forall_forall in Hlt. specialize (Hlt k Hin). lia.
  - apply Forall_app. split.
    + eapply Forall_impl; [|exact Hlt]. cbn beta. intros k Hk. lia.
    + constructor; [cbn [contact_pk]; lia | constructor].
  - lia.
Qed.

(** So does a deletion. *)
Lemma delete_keeps_keys canne_id contact_id role d :
  unique_together d -> contact_pks_ok d ->
  let d' := snd (DeleteContactAPIView_post canne_id contact_id role d) in
  unique_together d' /\ contact_pks_ok d' /\ contact_seq d <= contact_seq d'.
Proof.
  intros Huniq [Hnd Hlt] d'. subst d'.
  destruct (delete_cases canne_id contact_id role d)
    as [[-> _] | [k [_ [_ [_ [_ ->]]]]]].
  { repeat split; try assumption. lia. }
  unfold unique_together, contact_pks_ok, Contact_delete. cbn [snd contacts contact_seq].
  split; [|split; [split|]].
  - apply NoDup_map_filter. exact Huniq.
  - apply NoDup_map_filter. exact Hnd.
  - rewrite Forall_forall in *. intros x Hx. apply filter_In in Hx. apply Hlt, Hx.
  - lia.
Qed.

(** X11. Whatever requests are served, no two contacts ever share cane
    and telephone, no two contacts share a primary key, every key is below
    the sequence and the sequence never goes back: the identifier of a
    deleted contact is not given again. *)
Theorem sessions_keep_keys upper (rs : list request) (d : database) :
  unique_together d -> contact_pks_ok d ->
  let d' := snd (serve_all upper rs d) in
  unique_together d' /\ contact_pks_ok d' /\ contact_seq d <= contact_seq d'.
Proof.
  intros Huniq Hpk d'. subst d'. revert d Huniq Hpk.
  induction rs as [|r rs IH]; intros d Huniq Hpk.
  { cbn. repeat split; try assumption; try apply Hpk. lia. }
  cbn [serve_all].
  destruct (serve upper r d) as [a d1] eqn:E1.
  specialize (IH d1). destruct (serve_all upper rs d1) as [answers d2].
  cbn [snd] in *.
  assert (Hstep : unique_together d1 /\ contact_pks_ok d1
                  /\ contact_seq d <= contact_seq d1).
  { replace d1 with (snd (serve upper r d)) by (rewrite E1; reflexivity).
    destruct r as [request_nom canne_id role numero_contact | canne_id contact_id role];
      cbn [serve]; [apply post_keeps_keys | apply delete_keeps_keys]; assumption. }
  destruct Hstep as [H1 [H2 H3]]. destruct (IH H1 H2) as [H4 [H5 H6]].
  repeat split; try assumption; try apply H5. lia.
Qed.

(** A contact is registered, deleted, and the number registered again: the
    second registration gets a new identifier. *)
Lemma sessions_keep_keys_witness :
  let d' :=
    snd (serve_all (fun s => s)
           [Register None 1 (lit "FAMILLE") (lit "+237600000001");
            Delete 1 1 (lit "SUPER_ADMIN");
            Register None 1 (lit "FAMILLE") (lit "+237600000001")] db_1) in
  unique_together d' /\ contact_pks_ok d' /\ 1 <= contact_seq d'.
Proof.
  apply (sessions_keep_keys (fun s => s)
           [Register None 1 (lit "FAMILLE") (lit "+237600000001");
            Delete 1 1 (lit "SUPER_ADMIN");
            Register None 1 (lit "FAMILLE") (lit "+237600000001")] db_1).
  - unfold unique_together. cbn. constructor.
  - split; cbn; constructor.
Defined.



(** X13. A deletion is refused with 403, and changes nothing, for every
    role other than the exact string SUPER_ADMIN; it answers 404 and changes
    nothing when the identifier belongs to no contact of the cane named in
    the request, even if it belongs to a contact of another cane. When it
    answers 200 the rows with that identifier are gone, the others are kept
    in order, and the same request made again answers 404 and changes
    nothing. *)
Theorem deletion_behaviour canne_id contact_id role d :
  let out := DeleteContactAPIView_post canne_id contact_id role d in
  (role <> lit "SUPER_ADMIN" -> status (fst out) = 403 /\ snd out = d)
  /\ (role = lit "SUPER_ADMIN" ->
      (forall k, In k (contacts d) -> contact_pk k = contact_id -> canne k <> canne_id) ->
      status (fst out) = 404 /\ snd out = d)
  /\ (status (fst out) = 200 ->
      contacts (snd out)
      = filter (fun k => negb (contact_pk k =? contact_id)) (contacts d)
      /\ status (fst (DeleteContactAPIView_post canne_id contact_id role (snd out))) = 404
      /\ snd (DeleteContactAPIView_post canne_id contact_id role (snd out)) = snd out).
Proof.
  intros out. subst out. split; [|split].
  - intros Hrole. unfold DeleteContactAPIView_post.
    destruct (str_eqb role (lit "SUPER_ADMIN")) eqn:E.
    + apply str_eqb_eq in E. contradiction.
    + split; reflexivity.
  - intros -> Hnone. unfold DeleteContactAPIView_post.
    rewrite str_eqb_refl. cbn [negb].
    destruct (Contact_filter_id_canne contact_id canne_id d) as [|k q] eqn:E;
      [split; reflexivity|].
    assert (Hin : In k (Contact_filter_id_canne contact_id canne_id d))
      by (rewrite E; left; reflexivity).
    apply filter_In in Hin. destruct Hin as [Hin Hb].
    apply andb_true_iff in Hb. destruct Hb as [Hpk Hc].
    apply Z.eqb_eq in Hpk. apply Z.eqb_eq in Hc.
    exfalso. exact (Hnone k Hin Hpk Hc).
  - destruct (delete_cases canne_id contact_id role d)
      as [[_ Hstatus] | [k [Hin [Hpk [Hc [Hrole ->]]]]]]; [intros H; contradiction|].
    intros _. cbn [snd fst]. split.
    + unfold Contact_delete. cbn [contacts]. rewrite Hpk. reflexivity.
    + unfold DeleteContactAPIView_post. rewrite Hrole, str_eqb_refl. cbn [negb].
      destruct (Contact_filter_id_canne contact_id canne_id (Contact_delete k d))
        as [|k' q] eqn:E; [split; reflexivity|].
      assert (Hin' : In k' (Contact_filter_id_canne contact_id canne_id
                              (Contact_delete k d)))
        by (rewrite E; left; reflexivity).
      apply filter_In in Hin'. destruct Hin' as [Hin' Hb].
      apply Contact_delete_In in Hin'. destruct Hin' as [_ Hne].
      apply andb_true_iff in Hb. destruct Hb as [Hpk' _]. apply Z.eqb_eq in Hpk'.
      exfalso. apply Hne. rewrite Hpk, Hpk'. reflexivity.
Qed.

(** The role of a super administrator as [User.Role] spells it is refused;
    contact 3 cannot be deleted through cane 2; deleted through cane 1 it is
    gone, and a second deletion is answered 404. *)
Lemma deletion_behaviour_witness :
  status (fst (DeleteContactAPIView_post 1 3 Users.SUPERADMIN db_5)) = 403
  /\ snd (DeleteContactAPIView_post 2 3 (lit "SUPER_ADMIN") db_5) = db_5
  /\ status (fst (DeleteContactAPIView_post 1 3 (lit "SUPER_ADMIN")
                    (snd (DeleteContactAPIView_post 1 3 (lit "SUPER_ADMIN") db_5))))
     = 404.
Proof.
  split; [|split].
  - apply (proj1 (deletion_behaviour 1 3 Users.SUPERADMIN db_5)). discriminate.
  - apply (proj1 (proj2 (deletion_behaviour 2 3 (lit "SUPER_ADMIN") db_5)) eq_refl).
    intros k Hin _.
    assert (Hall : Forall (fun k => canne k = 1) (contacts db_5))
      by (vm_compute; repeat constructor).
    rewrite Forall_forall in Hall. rewrite (Hall k Hin). discriminate.
  - apply (proj2 (proj2 (deletion_behaviour 1 3 (lit "SUPER_ADMIN") db_5))).
    reflexivity.
Defined.

(** The sample table with five contacts is in order. *)
Lemma db_5_slot_table_ok : slot_table_ok db_5.
Proof.
  pose proof (post_keeps_slots (fun s => s) None 1 (lit "FAMILLE")) as Hstep.
  unfold db_5, register. repeat apply Hstep.
  intros cid. unfold slots_of. cbn. split; constructor.
Qed.

(** X14. In a table in order whose numbers fit their column, once a
    contact of a known cane has been deleted its number can be registered
    again for that cane, with a name and a role that the table takes: the
    request is not refused as a duplicate nor for lack of room, and the
    index it receives is at most the index that was freed. *)
Theorem freed_number_can_return upper request_nom canne_id contact_id role role' d c :
  slot_table_ok d ->
  unique_together d ->
  Forall (fun k => fits 20 (telephone k) = true) (contacts d) ->
  nom_storable request_nom ->
  fits 20 (upper role') = true ->
  Canne_objects_get canne_id d = Some c ->
  status (fst (DeleteContactAPIView_post canne_id contact_id role d)) = 200 ->
  let d' := snd (DeleteContactAPIView_post canne_id contact_id role d) in
  exists k i i',
    data (fst (DeleteContactAPIView_post canne_id contact_id role d))
    = Removed "Contact supprimé avec succès." k (Some i)
    /\ fst (RegisterContactViaSMSAPIView_post upper request_nom canne_id role'
              (telephone k) d')
       = {| data := Registered (contact_seq d) i'
                      "Contact enregistré avec succès en base de données.";
            status := 201 |}
    /\ 1 <= i' <= i /\ i <= 5.
Proof.
  intros Hslots Huniq Hcols Hnom Hrole' Hget Hstatus d'. subst d'.
  destruct (delete_cases canne_id contact_id role d)
    as [[_ Hno] | [k [Hin [Hpk [Hc [Hrole E]]]]]]; [contradiction|].
  rewrite E. cbn [fst snd data].
  assert (Hcpk : canne_pk c = canne_id).
  { unfold Canne_objects_get in Hget. apply find_some in Hget.
    apply Z.eqb_eq. apply Hget. }
  assert (Hk : In k (filter (fun k0 => canne k0 =? canne_pk c) (contacts d))).
  { apply filter_In. split; [exact Hin | apply Z.eqb_eq; congruence]. }
  destruct (Hslots (canne_pk c)) as [Hnd Hrange].
  assert (Hidx : exists i, id_microcontroleur k = Some i /\ 1 <= i <= 5).
  { rewrite Forall_forall in Hrange. apply Hrange. unfold slots_of.
    apply in_map. exact Hk. }
  destruct Hidx as [i [Hi Hir]].
  assert (Hget' : Canne_objects_get canne_id (Contact_delete k d) = Some c) by exact Hget.
  assert (Hnew : forall k', In k' (contacts (Contact_delete k d)) ->
                            canne k' = canne_pk c -> telephone k' <> telephone k).
  { intros k' Hin' Hc' Ht. apply Contact_delete_In in Hin'. destruct Hin' as [Hin' Hne].
    apply Hne. f_equal.
    apply (NoDup_map_eq (fun x => (canne x, telephone x)) (contacts d));
      [exact Huniq | exact Hin' | exact Hin |].
    cbn beta. rewrite Ht, Hc', Hc, Hcpk. reflexivity. }
  assert (Hst : storable upper request_nom role' (telephone k)).
  { split; [exact Hnom | split; [|exact Hrole']].
    rewrite Forall_forall in Hcols. apply Hcols, Hin. }
  destruct (post_allocates_storable upper request_nom canne_id role' (telephone k)
              (Contact_delete k d) c Hget' Hnew Hst) as [n [_ Hpost]].
  assert (Hfreed : index_in i (map id_microcontroleur
                                 (Contact_filter_canne c (Contact_delete k d))) = false).
  { destruct (index_in i _) eqn:Ein; [|reflexivity]. exfalso.
    apply index_in_assigned in Ein. destruct Ein as [k' [Hin' [Hc' Hi']]].
    apply Contact_delete_In in Hin'. destruct Hin' as [Hin' Hne].
    apply Hne. f_equal.
    apply (NoDup_map_eq id_microcontroleur
             (filter (fun k0 => canne k0 =? canne_pk c) (contacts d)));
      [exact Hnd | | exact Hk | congruence].
    apply filter_In. split; [exact Hin' | apply Z.eqb_eq; exact Hc']. }
  pose proof (index_libre_spec
                (map id_microcontroleur (Contact_filter_canne c (Contact_delete k d))))
    as Hspec.
  destruct (index_libre _) as [i'|].
  - destruct Hspec as [Hi' [_ Hlow]].
    exists k, i, i'. rewrite Hi, Hpost. cbn [fst Contact_delete contact_seq].
    split; [reflexivity|]. split; [reflexivity|]. split; [|lia].
    split; [lia|].
    destruct (Z.le_gt_cases i' i) as [Hle | Hgt]; [exact Hle|].
    rewrite Hlow in Hfreed by lia. discriminate.
  - rewrite Hspec in Hfreed by lia. discriminate.
Qed.

(** With A to E registered, C is deleted and her number registered again. *)
Lemma freed_number_can_return_witness :
  exists k i i',
    data (fst (DeleteContactAPIView_post 1 3 (lit "SUPER_ADMIN") db_5))
    = Removed "Contact supprimé avec succès." k (Some i)
    /\ fst (RegisterContactViaSMSAPIView_post (fun s => s) None 1 (lit "AMI")
              (telephone k)
              (snd (DeleteContactAPIView_post 1 3 (lit "SUPER_ADMIN") db_5)))
       = {| data := Registered (contact_seq db_5) i'
                      "Contact enregistré avec succès en base de données.";
            status := 201 |}
    /\ 1 <= i' <= i /\ i <= 5.
Proof.
  apply (freed_number_can_return (fun s => s) None 1 3 (lit "SUPER_ADMIN") (lit "AMI")
           db_5 canne_1).
  - apply (db_5_slot_table_ok).
  - unfold unique_together. vm_compute.
    repeat (constructor; [cbn; intuition discriminate|]). constructor.
  - apply Forall_forall, forallb_forall. vm_compute. reflexivity.
  - exists (lit "Sans nom"). split; reflexivity.
  - reflexivity.
  - reflexivity.
  - reflexivity.
Defined.

(** The answer that the [n]-th of a run of registrations gets when [j]
    indices were held before the run. *)
Lemma fill_from upper canne_id role c :
  fits 20 (upper role) = true ->
  forall (ts : list str) (d : database) (j : nat),
    (j <= 5)%nat ->
    Canne_objects_get canne_id d = Some c ->
    (forall i, index_in i (slots_of (canne_pk c) d) = true <-> 1 <= i <= Z.of_nat j) ->
    (forall k, In k (contacts d) -> canne k = canne_pk c -> ~ In (telephone k) ts) ->
    NoDup ts ->
    Forall (fun t => fits 20 t = true) ts ->
    forall n t,
      nth_error ts n = Some t ->
      nth_error
        (fst (serve_all upper (map (fun t => Register None canne_id role t) ts) d)) n
      = Some (if (j + n <? 5)%nat
              then {| data := Registered (contact_seq d + Z.of_nat n)
                                (Z.of_nat (j + n) + 1)
                                "Contact enregistré avec succès en base de données.";
                      status := 201 |}
              else {| data := Detail "Mémoire de la canne pleine (5 max).";
                      status := 400 |}).
Proof.
  intros Hrole.
  induction ts as [|t0 ts IH]; intros d j Hj Hget Hheld Hnew Hnodup Hfit n t Hn.
  { destruct n; discriminate Hn. }
  inversion Hnodup as [|? ? Hnotin Hnodup']; subst.
  inversion Hfit as [|? ? Hfit0 Hfit']; subst.
  cbn [map serve_all serve].
  assert (Hnew0 : forall k, In k (contacts d) -> canne k = canne_pk c ->
                            telephone k <> t0).
  { intros k Hin Hc Ht. apply (Hnew k Hin Hc). left. symmetry. exact Ht. }
  assert (Hst : storable upper None role t0).
  { split; [exists (lit "Sans nom"); split; reflexivity | split; assumption]. }
  destruct (post_allocates_storable upper None canne_id role t0 d c Hget Hnew0 Hst)
    as [n0 [Hn0 Hpost]].
  injection Hn0 as <-.
  rewrite Hpost. clear Hpost.
  rewrite <- slots_of_filter.
  destruct (Nat.eq_dec j 5) as [-> | Hj5].
  - (* the cane is full *)
    assert (Hfull : index_libre (slots_of (canne_pk c) d) = None).
    { pose proof (index_libre_spec (slots_of (canne_pk c) d)) as Hspec.
      destruct (index_libre _) as [i|]; [|reflexivity].
      destruct Hspec as [Hi [Hfree _]].
      rewrite (proj2 (Hheld i)) in Hfree by lia. discriminate. }
    rewrite Hfull.
    specialize (IH d 5%nat Hj Hget Hheld
                  (fun k Hin Hc Ht => Hnew k Hin Hc (or_intror Ht)) Hnodup' Hfit').
    destruct (serve_all upper _ d) as [answers d2]. cbn [fst] in *.
    destruct n as [|n]; [reflexivity|].
    cbn [nth_error] in *. rewrite (IH n t Hn).
    destruct (Nat.ltb_spec (5 + n) 5); [lia|].
    destruct (Nat.ltb_spec (5 + S n) 5); [lia|]. reflexivity.
  - (* index j + 1 is the lowest free one *)
    assert (Hfree : index_libre (slots_of (canne_pk c) d) = Some (Z.of_nat j + 1)).
    { apply index_libre_lowest; [lia | |].
      - destruct (index_in _ _) eqn:E; [|reflexivity].
        apply Hheld in E. lia.
      - intros i Hi. apply Hheld. lia. }
    rewrite Hfree.
    set (d1 := snd (Contact_insert c (lit "Sans nom") t0 (upper role)
                      (Z.of_nat j + 1) true d)).
    assert (Hheld1 : forall i, index_in i (slots_of (canne_pk c) d1) = true
                               <-> 1 <= i <= Z.of_nat (S j)).
    { intros i. unfold d1, slots_of, Contact_insert. cbn [snd contacts].
      rewrite filter_app, map_app. cbn [filter canne]. rewrite Z.eqb_refl.
      cbn [map id_microcontroleur]. rewrite index_in_In, in_app_iff, <- index_in_In.
      fold (slots_of (canne_pk c) d). rewrite Hheld. cbn [In]. split.
      - intros [H | [[= <-] | []]]; lia.
      - intros H. destruct (Z.eq_dec i (Z.of_nat j + 1)) as [-> | Hne];
          [right; left; reflexivity | left; lia]. }
    assert (Hnew1 : forall k, In k (contacts d1) -> canne k = canne_pk c ->
                              ~ In (telephone k) ts).
    { intros k Hin Hc. unfold d1, Contact_insert in Hin. cbn [snd contacts] in Hin.
      apply in_app_iff in Hin. destruct Hin as [Hin | [<- | []]].
      - intros Ht. apply (Hnew k Hin Hc). right. exact Ht.
      - exact Hnotin. }
    specialize (IH d1 (S j) ltac:(lia) Hget Hheld1 Hnew1 Hnodup' Hfit').
    destruct (serve_all upper _ d1) as [answers d2]. cbn [fst] in *.
    destruct n as [|n].
    + cbn [nth_error]. destruct (Nat.ltb_spec (j + 0) 5); [|lia].
      do 3 f_equal; lia.
    + cbn [nth_error] in *. rewrite (IH n t Hn).
      replace (S j + n)%nat with (j + S n)%nat by lia.
      destruct (Nat.ltb_spec (j + S n) 5); [|reflexivity].
      unfold d1, Contact_insert. cbn [snd contact_seq].
      do 3 f_equal; lia.
Qed.

(** X15. Starting from a known cane that has no contact, registrations of
    distinct numbers that fit their column, with a role that fits its own,
    one after the other receive the indices 1, 2, 3, 4, 5 in that order and
    consecutive identifiers, and every registration from the sixth on is
    refused: memory full. *)
Theorem registrations_fill_in_order upper canne_id role c (ts : list str)
    (d : database) (n : nat) (t : str) :
  Canne_objects_get canne_id d = Some c ->
  Contact_filter_canne c d = [] ->
  NoDup ts ->
  Forall (fun t => fits 20 t = true) ts ->
  fits 20 (upper role) = true ->
  nth_error ts n = Some t ->
  nth_error (fst (serve_all upper (map (fun t => Register None canne_id role t) ts) d)) n
  = Some (if (n <? 5)%nat
          then {| data := Registered (contact_seq d + Z.of_nat n) (Z.of_nat n + 1)
                            "Contact enregistré avec succès en base de données.";
                  status := 201 |}
          else {| data := Detail "Mémoire de la canne pleine (5 max).";
                  status := 400 |}).
Proof.
  intros Hget Hempty Hnodup Hfit Hrole Hn.
  assert (Hheld : forall i, index_in i (slots_of (canne_pk c) d) = true
                            <-> 1 <= i <= Z.of_nat 0).
  { intros i. rewrite slots_of_filter, Hempty. cbn. split; [discriminate | lia]. }
  assert (Hnew : forall k, In k (contacts d) -> canne k = canne_pk c ->
                           ~ In (telephone k) ts).
  { intros k Hin Hc. exfalso.
    assert (Hk : In k (Contact_filter_canne c d)).
    { apply filter_In. split; [exact Hin | apply Z.eqb_eq; exact Hc]. }
    rewrite Hempty in Hk. exact Hk. }
  exact (fill_from upper canne_id role c Hrole ts d 0 ltac:(lia) Hget Hheld Hnew Hnodup
           Hfit n t Hn).
Qed.

(** Seven numbers: the third gets index 3, the seventh is refused. *)
Lemma registrations_fill_in_order_witness :
  let ts := map lit ["+1"; "+2"; "+3"; "+4"; "+5"; "+6"; "+7"]%string in
  let answers :=
    fst (serve_all (fun s => s) (map (fun t => Register None 1 (lit "AMI") t) ts) db_1) in
  nth_error answers 2
  = Some {| data := Registered 3 3 "Contact enregistré avec succès en base de données.";
            status := 201 |}
  /\ nth_error answers 6
     = Some {| data := Detail "Mémoire de la canne pleine (5 max)."; status := 400 |}.
Proof.
  intros ts answers.
  assert (Hnodup : NoDup ts).
  { subst ts. cbn. repeat (constructor; [cbn; intuition discriminate|]). constructor. }
  assert (Hfit : Forall (fun t => fits 20 t = true) ts).
  { subst ts. cbn [map]. repeat constructor. }
  split.
  - apply (registrations_fill_in_order (fun s => s) 1 (lit "AMI") canne_1 ts db_1 2
             (lit "+3") eq_refl eq_refl Hnodup Hfit eq_refl eq_refl).
  - apply (registrations_fill_in_order (fun s => s) 1 (lit "AMI") canne_1 ts db_1 6
             (lit "+7") eq_refl eq_refl Hnodup Hfit eq_refl eq_refl).
Defined.

End SessionFacts.

(** ** Permissions and the validation of a cane's number *)

Section PermissionFacts.
Import Py Models Users.

(** X16. Whoever may delete a contact may modify it, and every super
    administrator is an administrator. A user who is not super
    administrator may modify exactly the contacts he added himself, so a
    contact without author is out of his reach; a third-party contact is no
    administrator. *)
Theorem permissions_are_nested (c : Contact) (u : User) :
  (peut_etre_supprime_par c u = true -> peut_etre_modifie_par c u = true)
  /\ (is_superadmin u = true -> is_admin u = true)
  /\ (is_superadmin u = false ->
      (peut_etre_modifie_par c u = true <-> ajoute_par c = Some (user_pk u)))
  /\ (role u = CONTACT_TIERS -> is_admin u = false /\ can_delete_contact u = false).
Proof.
  unfold peut_etre_supprime_par, peut_etre_modifie_par, is_admin, can_delete_contact.
  split; [|split; [|split]].
  - intros ->. reflexivity.
  - unfold is_superadmin. intros H. cbn [existsb]. rewrite H. reflexivity.
  - intros ->. cbn [orb]. destruct (ajoute_par c) as [p|].
    + rewrite Z.eqb_eq. split; [intros ->; reflexivity | intros [= ->]; reflexivity].
    + split; discriminate.
  - unfold is_superadmin. intros ->. split; reflexivity.
Qed.

(** An administrator and the contact she added; a contact without author. *)
Lemma permissions_are_nested_witness :
  let u := {| user_pk := 7; role := ADMIN; user_telephone := lit "+237611111111";
              canne_associee := Some 1 |} in
  let own := {| contact_pk := 1; canne := 1; nom := lit "A"; prenom := [];
                telephone := lit "+237600000001"; type_contact := lit "AMI";
                priorite := 1; ajoute_par := Some 7; id_microcontroleur := Some 1;
                synchro_avec_canne := true |} in
  let orphan := {| contact_pk := 2; canne := 1; nom := lit "B"; prenom := [];
                   telephone := lit "+237600000002"; type_contact := lit "AMI";
                   priorite := 1; ajoute_par := None; id_microcontroleur := Some 2;
                   synchro_avec_canne := true |} in
  peut_etre_modifie_par own u = true /\ peut_etre_modifie_par orphan u <> true.
Proof.
  intros u own orphan. split.
  - apply (proj1 (proj2 (proj2 (permissions_are_nested own u))) eq_refl). reflexivity.
  - intros H.
    apply (proj1 (proj2 (proj2 (permissions_are_nested orphan u))) eq_refl) in H.
    discriminate H.
Defined.

End PermissionFacts.

Section ValidateFacts.
Import Py CanneSerializer.
Variable isdigit_char : Z -> bool.

Lemma remove_char_In (c x : Z) (s : str) :
  In x (remove_char c s) <-> In x s /\ x <> c.
Proof.
  unfold remove_char. rewrite filter_In, negb_true_iff, Z.eqb_neq. reflexivity.
Qed.

Lemma remove_char_idem (c : Z) (s : str) :
  remove_char c (remove_char c s) = remove_char c s.
Proof.
  unfold remove_char. induction s as [|x s IH]; [reflexivity|].
  cbn [filter]. destruct (negb (x =? c)) eqn:E; [|exact IH].
  cbn [filter]. rewrite E, IH. reflexivity.
Qed.

Lemma isdigit_spec (s : str) :
  isdigit isdigit_char s = true
  <-> s <> [] /\ Forall (fun c => isdigit_char c = true) s.
Proof.
  unfold isdigit. destruct s as [|x s].
  - split; [discriminate | intros [H _]; congruence].
  - rewrite forallb_forall, Forall_forall. split.
    + intros H. split; [discriminate | exact H].
    + intros [_ H]. exact H.
Qed.

(** X17. A value is accepted only in its normal form: what is returned is
    the value without its spaces, it has at least 8 characters, each of
    them a digit or a plus sign, at least one of them a digit, and
    validating it again returns it unchanged. *)
Theorem validate_numero_gsm_normal_form (value numero : str) :
  validate_numero_gsm isdigit_char value = Valid numero ->
  numero = remove_char SPACE value
  /\ ~ In SPACE numero
  /\ (8 <= List.length numero)%nat
  /\ Forall (fun c => c = PLUS \/ isdigit_char c = true) numero
  /\ (exists c, In c numero /\ isdigit_char c = true)
  /\ validate_numero_gsm isdigit_char numero = Valid numero.
Proof.
  unfold validate_numero_gsm.
  destruct (isdigit isdigit_char (remove_char PLUS (remove_char SPACE value))) eqn:Ed;
    cbn [negb]; [|discriminate].
  destruct (Z.ltb_spec (Z.of_nat (List.length (remove_char SPACE value))) 8) as [|Hlen];
    [discriminate|].
  intros [= <-].
  apply isdigit_spec in Ed. destruct Ed as [Hne Hall]. rewrite Forall_forall in Hall.
  split; [reflexivity|]. split; [|split; [|split; [|split]]].
  - intros H. apply remove_char_In in H. destruct H as [_ H]. congruence.
  - lia.
  - apply Forall_forall. intros c Hc.
    destruct (Z.eq_dec c PLUS) as [-> | Hp]; [left; reflexivity | right].
    apply Hall. apply remove_char_In. split; assumption.
  - destruct (remove_char PLUS (remove_char SPACE value)) as [|c q] eqn:E; [congruence|].
    exists c. split.
    + assert (Hc : In c (remove_char PLUS (remove_char SPACE value)))
        by (rewrite E; left; reflexivity).
      apply remove_char_In in Hc. apply Hc.
    + apply Hall. left. reflexivity.
  - rewrite remove_char_idem.
    assert (Hd : isdigit isdigit_char (remove_char PLUS (remove_char SPACE value)) = true).
    { apply isdigit_spec. split; [exact Hne | apply Forall_forall; exact Hall]. }
    rewrite Hd. cbn [negb].
    destruct (Z.ltb_spec (Z.of_nat (List.length (remove_char SPACE value))) 8);
      [lia | reflexivity].
Qed.

(** X18. Spaces play no part in the verdict: a value and the same value
    with its spaces taken out are judged alike. A value made of spaces and
    plus signs only, the empty one included, is refused for its characters,
    not for its length. *)
Theorem validate_numero_gsm_ignores_spaces (value : str) :
  validate_numero_gsm isdigit_char value
  = validate_numero_gsm isdigit_char (remove_char SPACE value)
  /\ (Forall (fun c => c = SPACE \/ c = PLUS) value ->
      validate_numero_gsm isdigit_char value
      = ValidationError
          "Le numéro GSM ne doit contenir que des chiffres et éventuellement un '+'.").
Proof.
  split.
  - unfold validate_numero_gsm. rewrite remove_char_idem. reflexivity.
  - intros Hall. unfold validate_numero_gsm.
    assert (Hempty : remove_char PLUS (remove_char SPACE value) = []).
    { destruct (remove_char PLUS (remove_char SPACE value)) as [|c q] eqn:E;
        [reflexivity|]. exfalso.
      assert (Hc : In c (remove_char PLUS (remove_char SPACE value)))
        by (rewrite E; left; reflexivity).
      apply remove_char_In in Hc. destruct Hc as [Hc Hp].
      apply remove_char_In in Hc. destruct Hc as [Hc Hs].
      rewrite Forall_forall in Hall. destruct (Hall c Hc); contradiction. }
    rewrite Hempty. reflexivity.
Qed.

End ValidateFacts.

Section ValidateWitnesses.
Import Py CanneSerializer.

(** A number typed with spaces. *)
Lemma validate_numero_gsm_normal_form_witness :
  validate_numero_gsm ascii_digit (lit "+237 699 99 99 99") = Valid (lit "+237699999999")
  /\ validate_numero_gsm ascii_digit (lit "+237699999999") = Valid (lit "+237699999999").
Proof.
  assert (H : validate_numero_gsm ascii_digit (lit "+237 699 99 99 99")
              = Valid (lit "+237699999999")) by reflexivity.
  split; [exact H|].
  apply (validate_numero_gsm_normal_form ascii_digit (lit "+237 699 99 99 99")
           (lit "+237699999999") H).
Defined.

(** A lone plus sign between spaces. *)
Lemma validate_numero_gsm_ignores_spaces_witness :
  validate_numero_gsm ascii_digit (lit " + ")
  = ValidationError
      "Le numéro GSM ne doit contenir que des chiffres et éventuellement un '+'.".
Proof.
  apply (proj2 (validate_numero_gsm_ignores_spaces ascii_digit (lit " + "))).
  constructor; [left; reflexivity|].
  constructor; [right; reflexivity|].
  constructor; [left; reflexivity | constructor].
Defined.

End ValidateWitnesses.

(** ** The canes: registration, deletion, and what follows for jobs and contacts *)

Section CaneFacts.
Import Py Serial Models Celery Tasks Spec Invariants Samples Samples2.
Import CaneViews.

Lemma find_last {A} (f : A -> bool) (l : list A) (x : A) :
  (forall y, In y l -> f y = false) -> f x = true -> find f (l ++ [x]) = Some x.
Proof.
  intros Hl Hx. induction l as [|a l IH]; cbn [app find].
  - rewrite Hx. reflexivity.
  - rewrite (Hl a (or_introl eq_refl)). apply IH. intros y Hy. apply Hl. right. exact Hy.
Qed.

Section Registration.
Variable Data : Type.
Variable is_valid : Data -> database -> string + (str * option string).

(** The two ways the registration of a cane ends. *)
Lemma register_cane_cases (request_data : Data) (role : str) (s : store) :
  let out := RegisterCaneAPIView_post Data is_valid request_data role s in
  (snd out = s /\ status (fst out) <> 201)
  \/ exists gsm statut_,
       (forall c, In c (cannes (tables s)) -> numero_gsm c <> gsm)
       /\ out = ({| data := Registered gsm (canne_seq s); status := 201 |},
                 snd (Canne_objects_create gsm statut_ s)).
Proof.
  intros out. subst out. unfold RegisterCaneAPIView_post.
  destruct (negb (str_eqb role (lit "SUPER_ADMIN")));
    [left; split; [reflexivity | discriminate]|].
  destruct (is_valid request_data (tables s)) as [errors | [gsm statut_given]];
    [left; split; [reflexivity | discriminate]|].
  destruct (exists_ (filter _ (cannes (tables s)))) eqn:Edup;
    [left; split; [reflexivity | discriminate]|].
  right. exists gsm. eexists. split; [|reflexivity].
  intros c Hin Heq.
  pose proof (proj1 (exists_filter_false _ _) Edup c Hin) as Hf.
  cbn beta in Hf. rewrite Heq, str_eqb_refl in Hf. discriminate Hf.
Qed.

(** X19. Whatever the serializer lets through, the registration of a cane
    keeps the numbers of the canes distinct and their primary keys distinct
    and below the sequence; a request that is not answered 201 changes
    nothing, and no registration touches contacts or SMS logs. *)
Theorem cane_registration_keeps_numbers_unique
    (request_data : Data) (role : str) (s : store) :
  cannes_ok s ->
  let out := RegisterCaneAPIView_post Data is_valid request_data role s in
  cannes_ok (snd out)
  /\ (status (fst out) <> 201 -> snd out = s)
  /\ contacts (tables (snd out)) = contacts (tables s)
  /\ sms_logs (tables (snd out)) = sms_logs (tables s).
Proof.
  intros [Hpk [Hgsm Hlt]] out. subst out.
  destruct (register_cane_cases request_data role s)
    as [[-> Hstatus] | [gsm [statut_ [Hnew ->]]]].
  { repeat split; try assumption. }
  unfold cannes_ok, Canne_objects_create. cbn [snd fst tables cannes canne_seq status].
  rewrite !map_app. cbn [map canne_pk numero_gsm].
  split; [split; [|split]|split; [|split; reflexivity]].
  - apply NoDup_app; [exact Hpk | repeat constructor; intros [] |].
    intros pk Hin [<- | []]. apply in_map_iff in Hin. destruct Hin as [c [Hc Hin]].
    rewrite Forall_forall in Hlt. specialize (Hlt c Hin). lia.
  - apply NoDup_app; [exact Hgsm | repeat constructor; intros [] |].
    intros g Hin [<- | []]. apply in_map_iff in Hin. destruct Hin as [c [Hc Hin]].
    exact (Hnew c Hin Hc).
  - apply Forall_app. split.
    + eapply Forall_impl; [|exact Hlt]. cbn beta. intros c Hc. lia.
    + constructor; [cbn [canne_pk]; lia | constructor].
  - intros H. exfalso. apply H. reflexivity.
Qed.

(** X20. In tables where every contact points to an existing cane, the
    first contact registered for a cane that has just been registered,
    with a row that the table takes, receives index 1: a new cane starts
    with its five indices free. *)
Theorem new_cane_starts_empty upper request_nom
    (request_data : Data) (role role' numero_contact : str) (s : store) :
  cannes_ok s ->
  references_ok (tables s) ->
  Spec.storable upper request_nom role' numero_contact ->
  let out := RegisterCaneAPIView_post Data is_valid request_data role s in
  status (fst out) = 201 ->
  exists gsm,
    data (fst out) = Registered gsm (canne_seq s)
    /\ fst (ContactViews.RegisterContactViaSMSAPIView_post upper request_nom
              (canne_seq s) role' numero_contact (tables (snd out)))
       = {| ContactViews.data :=
              ContactViews.Registered (contact_seq (tables s)) 1
                "Contact enregistré avec succès en base de données.";
            ContactViews.status := 201 |}.
Proof.
  intros [Hpk [Hgsm Hlt]] [Hrefs _] Hst out Hstatus. subst out.
  destruct (register_cane_cases request_data role s)
    as [[_ Hno] | [gsm [statut_ [Hnew E]]]]; [contradiction|].
  rewrite E. cbn [fst snd data]. exists gsm. split; [reflexivity|].
  set (row := {| canne_pk := canne_seq s; numero_gsm := gsm; statut := statut_;
                 derniere_communication := None |}).
  assert (Hget : Canne_objects_get (canne_seq s)
                   (tables (snd (Canne_objects_create gsm statut_ s))) = Some row).
  { unfold Canne_objects_get, Canne_objects_create. cbn [snd tables cannes].
    apply find_last.
    - intros c Hin. rewrite Forall_forall in Hlt. specialize (Hlt c Hin).
      apply Z.eqb_neq. lia.
    - apply Z.eqb_refl. }
  assert (Hnone : forall k, In k (contacts (tables s)) -> canne k <> canne_seq s).
  { intros k Hin Heq. rewrite Forall_forall in Hrefs.
    destruct (Hrefs k Hin) as [c [Hc Hcpk]].
    rewrite Forall_forall in Hlt. specialize (Hlt c Hc). lia. }
  assert (Hempty : Contact_filter_canne row
                     (tables (snd (Canne_objects_create gsm statut_ s))) = []).
  { unfold Contact_filter_canne, Canne_objects_create. cbn [snd tables contacts canne_pk row].
    destruct (filter _ (contacts (tables s))) as [|k q] eqn:Ef; [reflexivity|].
    assert (Hk : In k (filter (fun k0 => canne k0 =? canne_seq s) (contacts (tables s))))
      by (rewrite Ef; left; reflexivity).
    apply filter_In in Hk. destruct Hk as [Hin Hc]. apply Z.eqb_eq in Hc.
    exfalso. exact (Hnone k Hin Hc). }
  destruct (post_allocates_storable upper request_nom (canne_seq s) role' numero_contact
              _ row Hget) as [n [_ Hpost]].
  - intros k Hin Hc. exfalso. apply (Hnone k); [exact Hin | exact Hc].
  - exact Hst.
  - rewrite Hpost, Hempty. reflexivity.
Qed.

End Registration.

(** What is left of the tables once a cane is deleted. *)
Lemma delete_cane_cases (numero role : str) (s : store) :
  let out := DeleteCaneAPIView_post numero role s in
  (snd out = s /\ status (fst out) <> 200)
  \/ exists c,
       In c (cannes (tables s)) /\ numero_gsm c = numero
       /\ out = ({| data := Removed numero; status := 200 |},
                 {| tables := Canne_delete c (tables s); canne_seq := canne_seq s |}).
Proof.
  intros out. subst out. unfold DeleteCaneAPIView_post.
  destruct (negb (str_eqb role (lit "SUPER_ADMIN")));
    [left; split; [reflexivity | discriminate]|].
  destruct (filter _ (cannes (tables s))) as [|c [|c' q]] eqn:E;
    [left; split; [reflexivity | discriminate] | |
     left; split; [reflexivity | discriminate]].
  right. exists c.
  assert (Hin : In c (filter (fun c0 => str_eqb (numero_gsm c0) numero)
                        (cannes (tables s)))) by (rewrite E; left; reflexivity).
  apply filter_In in Hin. destruct Hin as [Hin Hg]. apply str_eqb_eq in Hg.
  repeat split; assumption.
Qed.

(** X21. Deleting a cane takes its contacts and its SMS logs with it and
    nothing else: afterwards no contact and no log points to it, the rows
    of the other canes are all still there, every remaining contact and log
    still points to an existing cane, and the canes keep distinct numbers
    and keys. A request that is not answered 200 changes nothing. *)
Theorem cane_deletion_cascades (numero role : str) (s : store) :
  cannes_ok s ->
  references_ok (tables s) ->
  let out := DeleteCaneAPIView_post numero role s in
  cannes_ok (snd out)
  /\ references_ok (tables (snd out))
  /\ (status (fst out) <> 200 -> snd out = s)
  /\ (status (fst out) = 200 ->
      exists c,
        In c (cannes (tables s)) /\ numero_gsm c = numero
        /\ Canne_objects_get (canne_pk c) (tables (snd out)) = None
        /\ (forall k, In k (contacts (tables (snd out)))
                      <-> In k (contacts (tables s)) /\ canne k <> canne_pk c)
        /\ (forall l, In l (sms_logs (tables (snd out)))
                      <-> In l (sms_logs (tables s)) /\ log_canne l <> canne_pk c)).
Proof.
  intros [Hpk [Hgsm Hlt]] [Hrc Hrl] out. subst out.
  destruct (delete_cane_cases numero role s)
    as [[-> Hstatus] | [c [Hin [Hnum ->]]]].
  { repeat split; try assumption. intros H. contradiction. }
  cbn [fst snd status tables canne_seq].
  assert (Hcannes : forall c', In c' (cannes (Canne_delete c (tables s)))
                               <-> In c' (cannes (tables s)) /\ canne_pk c' <> canne_pk c).
  { intros c'. unfold Canne_delete. cbn [cannes].
    rewrite filter_In, negb_true_iff, Z.eqb_neq. reflexivity. }
  assert (Hcontacts : forall k, In k (contacts (Canne_delete c (tables s)))
                                <-> In k (contacts (tables s)) /\ canne k <> canne_pk c).
  { intros k. unfold Canne_delete. cbn [contacts].
    rewrite filter_In, negb_true_iff, Z.eqb_neq. reflexivity. }
  assert (Hlogs : forall l, In l (sms_logs (Canne_delete c (tables s)))
                            <-> In l (sms_logs (tables s)) /\ log_canne l <> canne_pk c).
  { intros l. unfold Canne_delete. cbn [sms_logs].
    rewrite filter_In, negb_true_iff, Z.eqb_neq. reflexivity. }
  split; [|split; [|split; [|]]].
  - unfold cannes_ok. cbn [tables canne_seq]. unfold Canne_delete at 1 2 3. cbn [cannes].
    split; [apply NoDup_map_filter; exact Hpk|].
    split; [apply NoDup_map_filter; exact Hgsm|].
    rewrite Forall_forall in *. intros x Hx. apply filter_In in Hx. apply Hlt, Hx.
  - split; apply Forall_forall.
    + intros k Hk. apply Hcontacts in Hk. destruct Hk as [Hk Hne].
      rewrite Forall_forall in Hrc. destruct (Hrc k Hk) as [c' [Hc' Hcpk]].
      exists c'. split; [|exact Hcpk]. apply Hcannes. split; [exact Hc' | congruence].
    + intros l Hl. apply Hlogs in Hl. destruct Hl as [Hl Hne].
      rewrite Forall_forall in Hrl. destruct (Hrl l Hl) as [c' [Hc' Hcpk]].
      exists c'. split; [|exact Hcpk]. apply Hcannes. split; [exact Hc' | congruence].
  - intros H. exfalso. apply H. reflexivity.
  - intros _. exists c. split; [exact Hin|]. split; [exact Hnum|].
    split; [|split; assumption].
    unfold Canne_objects_get.
    destruct (find _ (cannes (Canne_delete c (tables s)))) as [c'|] eqn:Ef; [|reflexivity].
    apply find_some in Ef. destruct Ef as [Hc' Heq]. apply Z.eqb_eq in Heq.
    apply Hcannes in Hc'. destruct Hc' as [_ Hne]. contradiction.
Qed.

(** X22. A job that was queued for a cane and runs after the cane has been
    deleted stops at its first run with the answer not_found: it makes no
    retry and does nothing on the serial port. *)
Theorem job_after_cane_deleted hws contenu user_id
    (numero role : str) (s : store) (tr : list event) (fuel : nat) :
  status (fst (DeleteCaneAPIView_post numero role s)) = 200 ->
  (1 <= fuel)%nat ->
  exists c,
    In c (cannes (tables s)) /\ numero_gsm c = numero
    /\ submit fuel hws (canne_pk c) contenu user_id
         {| db := tables (snd (DeleteCaneAPIView_post numero role s)); console := tr |}
       = Some {| job_exit := Return [("status", "failed"); ("reason", "not_found")]%string;
                 attempts := 1;
                 countdowns := [];
                 job_state :=
                   {| db := tables (snd (DeleteCaneAPIView_post numero role s));
                      console := tr ++ [EvLog (Error_introuvable (canne_pk c))] |} |}.
Proof.
  intros Hstatus Hfuel.
  destruct (delete_cane_cases numero role s)
    as [[_ Hno] | [c [Hin [Hnum E]]]]; [contradiction|].
  exists c. split; [exact Hin|]. split; [exact Hnum|].
  rewrite E. cbn [snd tables].
  assert (Hget : Canne_objects_get (canne_pk c) (Canne_delete c (tables s)) = None).
  { unfold Canne_objects_get.
    destruct (find _ (cannes (Canne_delete c (tables s)))) as [c'|] eqn:Ef; [|reflexivity].
    apply find_some in Ef. destruct Ef as [Hc' Heq]. apply Z.eqb_eq in Heq.
    unfold Canne_delete in Hc'. cbn [cannes] in Hc'. apply filter_In in Hc'.
    destruct Hc' as [_ Hne]. apply negb_true_iff, Z.eqb_neq in Hne. contradiction. }
  destruct fuel as [|fuel]; [lia|].
  unfold submit, delay. cbn [worker]. unfold task_envoyer_sms. cbn [db].
  rewrite Hget. reflexivity.
Qed.

(** The sample tables are in order. *)
Lemma store_5_ok : cannes_ok store_5 /\ references_ok (tables store_5).
Proof.
  assert (Hc : cannes (tables store_5) = [canne_1]) by (vm_compute; reflexivity).
  assert (Hl : sms_logs (tables store_5) = []) by (vm_compute; reflexivity).
  split.
  - unfold cannes_ok. rewrite Hc. change (canne_seq store_5) with 2.
    cbn. repeat split; repeat constructor; cbn; intuition lia.
  - unfold references_ok. rewrite Hc, Hl. split; [|constructor].
    assert (Hall : Forall (fun k => canne k = 1) (contacts (tables store_5)))
      by (vm_compute; repeat constructor).
    eapply Forall_impl; [|exact Hall]. cbn beta. intros k Hk.
    exists canne_1. split; [left; reflexivity | symmetry; exact Hk].
Qed.

(** A second cane is registered, its number typed with spaces. *)
Lemma cane_registration_keeps_numbers_unique_witness :
  cannes_ok (snd (RegisterCaneAPIView_post cane_form form_is_valid
                    {| form_numero := Some (lit "+237 688 88 88 88");
                       form_statut := None |}
                    (lit "SUPER_ADMIN") store_5)).
Proof.
  apply (cane_registration_keeps_numbers_unique cane_form form_is_valid
           {| form_numero := Some (lit "+237 688 88 88 88"); form_statut := None |}
           (lit "SUPER_ADMIN") store_5 (proj1 store_5_ok)).
Defined.

(** The second cane gets key 2 and its first contact index 1, while cane 1
    is full. *)
Lemma new_cane_starts_empty_witness :
  exists gsm,
    data (fst (RegisterCaneAPIView_post cane_form form_is_valid
                 {| form_numero := Some (lit "+237 688 88 88 88");
                    form_statut := None |}
                 (lit "SUPER_ADMIN") store_5))
    = Registered gsm 2
    /\ fst (ContactViews.RegisterContactViaSMSAPIView_post (fun s => s) None 2
              (lit "AMI") (lit "+237600000001")
              (tables (snd (RegisterCaneAPIView_post cane_form form_is_valid
                              {| form_numero := Some (lit "+237 688 88 88 88");
                                 form_statut := None |}
                              (lit "SUPER_ADMIN") store_5))))
       = {| ContactViews.data :=
              ContactViews.Registered 6 1
                "Contact enregistré avec succès en base de données.";
            ContactViews.status := 201 |}.
Proof.
  apply (new_cane_starts_empty cane_form form_is_valid (fun s => s) None
           {| form_numero := Some (lit "+237 688 88 88 88"); form_statut := None |}
           (lit "SUPER_ADMIN") (lit "AMI") (lit "+237600000001") store_5
           (proj1 store_5_ok) (proj2 store_5_ok)).
  - split; [exists (lit "Sans nom"); split; reflexivity | split; reflexivity].
  - reflexivity.
Defined.

(** Cane 1 is deleted with its five contacts. *)
Lemma cane_deletion_cascades_witness :
  contacts (tables (snd (DeleteCaneAPIView_post numero_canne (lit "SUPER_ADMIN") store_5)))
  = []
  /\ references_ok
       (tables (snd (DeleteCaneAPIView_post numero_canne (lit "SUPER_ADMIN") store_5))).
Proof.
  split; [reflexivity|].
  apply (cane_deletion_cascades numero_canne (lit "SUPER_ADMIN") store_5
           (proj1 store_5_ok) (proj2 store_5_ok)).
Defined.

(** The sample job, run after cane 1 is gone. *)
Lemma job_after_cane_deleted_witness :
  exists c,
    In c (cannes (tables store_5)) /\ numero_gsm c = numero_canne
    /\ submit 1 (fun _ => hw_live (lit "OK")) (canne_pk c) commande None
         {| db := tables (snd (DeleteCaneAPIView_post numero_canne (lit "SUPER_ADMIN")
                                 store_5));
            console := [] |}
       = Some {| job_exit := Return [("status", "failed"); ("reason", "not_found")]%string;
                 attempts := 1;
                 countdowns := [];
                 job_state :=
                   {| db := tables (snd (DeleteCaneAPIView_post numero_canne
                                           (lit "SUPER_ADMIN") store_5));
                      console := [] ++ [EvLog (Error_introuvable (canne_pk c))] |} |}.
Proof.
  apply (job_after_cane_deleted (fun _ => hw_live (lit "OK")) commande None
           numero_canne (lit "SUPER_ADMIN") store_5 [] 1).
  - reflexivity.
  - apply Nat.le_refl.
Defined.

End CaneFacts.

(** ** Canes do not interfere *)

Section IsolationFacts.
Import Py Models ContactViews Sessions Spec Invariants Samples Samples2.

Lemma filter_filter_absorb {A} (p q : A -> bool) (l : list A) :
  (forall x, In x l -> p x = true -> q x = true) ->
  filter p (filter q l) = filter p l.
Proof.
  induction l as [|a l IH]; intros H; [reflexivity|].
  cbn [filter]. destruct (q a) eqn:Eq; cbn [filter].
  - rewrite IH; [reflexivity|]. intros x Hx. apply H. right. exact Hx.
  - destruct (p a) eqn:Ep.
    + rewrite (H a (or_introl eq_refl) Ep) in Eq. discriminate.
    + apply IH. intros x Hx. apply H. right. exact Hx.
Qed.

(** One request leaves the contacts of the other canes as they are. *)
Lemma serve_isolated upper (r : request) (d : database) (cid : Z) :
  contact_pks_ok d -> about r <> cid ->
  filter (fun k => canne k =? cid) (contacts (snd (serve upper r d)))
  = filter (fun k => canne k =? cid) (contacts d).
Proof.
  intros [Hnd _] Hother.
  destruct r as [request_nom canne_id role numero_contact | canne_id contact_id role];
    cbn [serve about] in *.
  - destruct (post_cases upper request_nom canne_id role numero_contact d)
      as [[-> _] | [c [i [n [Hget [_ [_ [_ ->]]]]]]]]; [reflexivity|].
    unfold Canne_objects_get in Hget. apply find_some in Hget.
    destruct Hget as [_ Hpk]. apply Z.eqb_eq in Hpk.
    unfold Contact_insert. cbn [snd contacts].
    rewrite filter_app. cbn [filter canne].
    destruct (Z.eqb_spec (canne_pk c) cid) as [Heq | _]; [congruence|].
    apply app_nil_r.
  - destruct (delete_cases canne_id contact_id role d)
      as [[-> _] | [k [Hin [Hpk [Hc [_ ->]]]]]]; [reflexivity|].
    unfold Contact_delete. cbn [snd contacts].
    apply filter_filter_absorb. intros x Hx Hcx. apply Z.eqb_eq in Hcx.
    apply negb_true_iff, Z.eqb_neq. intros Heq.
    assert (x = k) by (apply (NoDup_map_eq contact_pk (contacts d)); assumption).
    subst x. congruence.
Qed.

Lemma serve_keeps_keys upper (r : request) (d : database) :
  unique_together d -> contact_pks_ok d ->
  unique_together (snd (serve upper r d)) /\ contact_pks_ok (snd (serve upper r d)).
Proof.
  intros Huniq Hpk.
  destruct r as [request_nom canne_id role numero_contact | canne_id contact_id role];
    cbn [serve].
  - destruct (post_keeps_keys upper request_nom canne_id role numero_contact d Huniq Hpk)
      as [H1 [H2 _]]. split; assumption.
  - destruct (delete_keeps_keys canne_id contact_id role d Huniq Hpk) as [H1 [H2 _]].
    split; assumption.
Qed.

(** X23. Requests about other canes never change the contacts of a cane:
    after any sequence of registrations and deletions none of which names
    cane [cid], the contacts of [cid] are the same rows in the same order,
    so the next index it would be given is the same too. *)
Theorem canes_do_not_interfere upper (rs : list request) (d : database) (cid : Z) :
  unique_together d ->
  contact_pks_ok d ->
  Forall (fun r => about r <> cid) rs ->
  let d' := snd (serve_all upper rs d) in
  filter (fun k => canne k =? cid) (contacts d')
  = filter (fun k => canne k =? cid) (contacts d)
  /\ index_libre (slots_of cid d') = index_libre (slots_of cid d).
Proof.
  intros Huniq Hpk Hall d'.
  assert (Hsame : filter (fun k => canne k =? cid) (contacts d')
                  = filter (fun k => canne k =? cid) (contacts d)).
  { subst d'. revert d Huniq Hpk. induction Hall as [|r rs Hr _ IH]; intros d Huniq Hpk;
      [reflexivity|].
    cbn [serve_all].
    pose proof (serve_isolated upper r d cid Hpk Hr) as Hstep.
    pose proof (serve_keeps_keys upper r d Huniq Hpk) as [Hu1 Hp1].
    destruct (serve upper r d) as [a d1]. cbn [snd] in *.
    specialize (IH d1 Hu1 Hp1).
    destruct (serve_all upper rs d1) as [answers d2]. cbn [snd] in *.
    rewrite IH. exact Hstep. }
  split; [exact Hsame|]. unfold slots_of. rewrite Hsame. reflexivity.
Qed.

(** Cane 2 gets a contact and loses it again; cane 1 keeps its five. *)
Lemma canes_do_not_interfere_witness :
  let d' :=
    snd (serve_all (fun s => s)
           [Register None 2 (lit "AMI") (lit "+237600000001");
            Delete 2 6 (lit "SUPER_ADMIN")] db_two) in
  filter (fun k => canne k =? 1) (contacts d') = contacts db_5
  /\ index_libre (slots_of 1 d') = None.
Proof.
  intros d'.
  destruct (canes_do_not_interfere (fun s => s)
              [Register None 2 (lit "AMI") (lit "+237600000001");
               Delete 2 6 (lit "SUPER_ADMIN")] db_two 1) as [H1 H2].
  - unfold unique_together. vm_compute.
    repeat (constructor; [cbn; intuition discriminate|]). constructor.
  - split.
    + vm_compute. repeat (constructor; [cbn; intuition discriminate|]). constructor.
    + vm_compute. repeat constructor.
  - repeat constructor; discriminate.
  - split.
    + fold d' in H1. rewrite H1. reflexivity.
    + fold d' in H2. rewrite H2. reflexivity.
Defined.

End IsolationFacts.
